(** * vpMbtPolygon: visibility test and frustum clipping of a model face

    Shallow embedding of [src/tracking/mbt/vpMbtPolygon.cpp] (ViSP
    model-based tracker).  A C++ [double] is a primitive binary64 float,
    an [unsigned int] bit mask is an [N] with [N.land]/[N.lor], the corner
    array [p] together with its length [nbpt] is a list, and a member
    function that mutates [*this] is a function returning the new
    polygon.  The classes of ViSP whose code is outside this file
    (vpPoint, vpColVector, vpRowVector, vpHomogeneousMatrix, vpMath) and
    the C library's [acos] are the fields of the interface [ViSP]. *)

From Stdlib Require Import ZArith NArith Floats Bool List Lia Permutation.
From Stdlib Require Import QArith.
Import ListNotations.
Close Scope Q_scope.

Set Implicit Arguments.
Set Warnings "-inexact-float".

(** ** Outcomes of a call *)

Inductive vpException : Type :=
| dimensionError.

(** [Normal a]: the call returns.  [Throws e]: a C++ exception leaves it.
    [Undefined]: the call indexes an array outside its bounds.
    [Unfinished]: the loop budget given to the model ran out. *)
Inductive outcome (A : Type) : Type :=
| Normal (a : A)
| Throws (e : vpException)
| Undefined
| Unfinished.

Arguments Throws {A} e.
Arguments Undefined {A}.
Arguments Unfinished {A}.

Definition bind {A B : Type} (m : outcome A) (k : A -> outcome B) : outcome B :=
  match m with
  | Normal a => k a
  | Throws e => Throws e
  | Undefined => Undefined
  | Unfinished => Unfinished
  end.

Notation "x <- m ;; k" := (bind m (fun x => k))
  (at level 61, m at next level, right associativity).

(** ** Points and vectors *)

(** Modelled from the spec: vpPoint, whose class is not part of the file.
    A point carries its object-frame coordinates, its camera-frame
    coordinates (X,Y,Z) and the normalized image-plane coordinates (x,y)
    derived from them by an explicit projection step. *)
Record vpPoint : Type := mkPoint {
  get_oX : float; get_oY : float; get_oZ : float;
  get_X : float; get_Y : float; get_Z : float;
  get_x : float; get_y : float
}.

Definition set_X (v : float) (q : vpPoint) : vpPoint :=
  mkPoint (get_oX q) (get_oY q) (get_oZ q) v (get_Y q) (get_Z q) (get_x q) (get_y q).
Definition set_Y (v : float) (q : vpPoint) : vpPoint :=
  mkPoint (get_oX q) (get_oY q) (get_oZ q) (get_X q) v (get_Z q) (get_x q) (get_y q).
Definition set_Z (v : float) (q : vpPoint) : vpPoint :=
  mkPoint (get_oX q) (get_oY q) (get_oZ q) (get_X q) (get_Y q) v (get_x q) (get_y q).

(** The vectors of this file all have three components. *)
Record vpColVector : Type := ColVector { c0 : float; c1 : float; c2 : float }.
Record vpRowVector : Type := RowVector { r0 : float; r1 : float; r2 : float }.

Record vpImagePoint : Type := ImagePoint { get_i : float; get_j : float }.

Record vpCameraParameters : Type := mkCam {
  isFovComputed : bool;
  getFovNormals : list vpColVector
}.

(** ** The library the file is compiled against *)

Class ViSP : Type := {
  vpHomogeneousMatrix : Type;
  (* <math.h> *)
  acos : float -> float;
  M_PI : float;
  (* vpMath::rad *)
  rad : float -> float;
  (* vpColVector::normalize, crossProd, dotProd *)
  col_normalize : vpColVector -> vpColVector;
  crossProd : vpColVector -> vpColVector -> vpColVector;
  dotProd : vpColVector -> vpColVector -> float;
  (* vpRowVector::normalize and vpRowVector * vpColVector *)
  row_normalize : vpRowVector -> vpRowVector;
  row_mul_col : vpRowVector -> vpColVector -> float;
  (* vpPoint(), vpPoint::changeFrame, vpPoint::projection *)
  pt_default : vpPoint;
  pt_changeFrame : vpHomogeneousMatrix -> vpPoint -> vpPoint;
  pt_projection : vpPoint -> vpPoint
}.

(** ** The clipping flags (vpMbtPolygonClippingType) *)

Definition NO_CLIPPING : N := 0.
Definition NEAR_CLIPPING : N := 1.
Definition FAR_CLIPPING : N := 2.
Definition LEFT_CLIPPING : N := 4.
Definition RIGHT_CLIPPING : N := 8.
Definition UP_CLIPPING : N := 16.
Definition DOWN_CLIPPING : N := 32.
Definition FOV_CLIPPING : N := 60.

(** ** The polygon *)

Record vpMbtPolygon : Type := mkPolygon {
  index : Z;
  nbCornersInsidePrev : nat;
  isvisible : bool;
  isappearing : bool;
  p : list vpPoint;
  roiPointsClip : list (vpPoint * N);
  clippingFlag : N;
  distNearClip : float;
  distFarClip : float
}.

(** The member [nbpt] is the length of the array [p]: the constructors,
    [setNbPoint] and [operator=] are the only writers of either and set
    both together. *)
Definition nbpt (poly : vpMbtPolygon) : nat := length (p poly).

(** vpMbtPolygon::vpMbtPolygon() *)
Definition vpMbtPolygon_new : vpMbtPolygon :=
  mkPolygon (-1) 0 false false [] [] NO_CLIPPING 0.001%float 100%float.

Definition with_visibility (v a : bool) (poly : vpMbtPolygon) : vpMbtPolygon :=
  mkPolygon (index poly) (nbCornersInsidePrev poly) v a (p poly)
            (roiPointsClip poly) (clippingFlag poly)
            (distNearClip poly) (distFarClip poly).

Definition with_p (pts : list vpPoint) (poly : vpMbtPolygon) : vpMbtPolygon :=
  mkPolygon (index poly) (nbCornersInsidePrev poly) (isvisible poly)
            (isappearing poly) pts (roiPointsClip poly) (clippingFlag poly)
            (distNearClip poly) (distFarClip poly).

Definition with_roiPointsClip (roi : list (vpPoint * N)) (poly : vpMbtPolygon)
  : vpMbtPolygon :=
  mkPolygon (index poly) (nbCornersInsidePrev poly) (isvisible poly)
            (isappearing poly) (p poly) roi (clippingFlag poly)
            (distNearClip poly) (distFarClip poly).

(** vpMbtPolygon::operator= : [this] is the destination, [mbtp] the
    source, another object ([assign_self] below is the call on one
    object).  The fresh array of [mbtp.nbpt] points filled from [mbtp.p]
    is the list [p mbtp].  [distNearClip] receives the source's
    [distFarClip] and [distFarClip] is not assigned. *)
Definition assign (this mbtp : vpMbtPolygon) : vpMbtPolygon :=
  mkPolygon (index mbtp) (nbCornersInsidePrev mbtp) (isvisible mbtp)
            (isappearing mbtp)
            (p mbtp)
            (roiPointsClip mbtp) (clippingFlag mbtp)
            (distFarClip mbtp) (distFarClip this).

(** Modelled from the spec: the setters of the clip mask and of the two
    clip distances, declared inline in the header, which is not part of
    the file; each stores the caller's value in its field.  The file
    calls the two distance setters only when the plane's bit is already
    in the mask. *)
Definition setClipping (flags : N) (poly : vpMbtPolygon) : vpMbtPolygon :=
  mkPolygon (index poly) (nbCornersInsidePrev poly) (isvisible poly)
            (isappearing poly) (p poly) (roiPointsClip poly) flags
            (distNearClip poly) (distFarClip poly).
Definition setNearClippingDistance (dist : float) (poly : vpMbtPolygon)
  : vpMbtPolygon :=
  mkPolygon (index poly) (nbCornersInsidePrev poly) (isvisible poly)
            (isappearing poly) (p poly) (roiPointsClip poly) (clippingFlag poly)
            dist (distFarClip poly).
Definition setFarClippingDistance (dist : float) (poly : vpMbtPolygon)
  : vpMbtPolygon :=
  mkPolygon (index poly) (nbCornersInsidePrev poly) (isvisible poly)
            (isappearing poly) (p poly) (roiPointsClip poly) (clippingFlag poly)
            (distNearClip poly) dist.

(** Store into the array: [a[n] = v].  [None] when [n] is outside. *)
Fixpoint store {A : Type} (n : nat) (v : A) (a : list A) {struct a}
  : option (list A) :=
  match a, n with
  | [], _ => None
  | _ :: t, O => Some (v :: t)
  | h :: t, S n' => option_map (cons h) (store n' v t)
  end.

Section Polygon.
Context {V : ViSP}.

(** vpMbtPolygon::getPoint *)
Definition getPoint (_index : nat) (poly : vpMbtPolygon) : outcome vpPoint :=
  if nbpt poly <=? _index then Throws dimensionError
  else match nth_error (p poly) _index with
       | Some q => Normal q
       | None => Undefined
       end.

(** vpMbtPolygon::setNbPoint *)
Definition setNbPoint (nb : nat) (poly : vpMbtPolygon) : vpMbtPolygon :=
  with_p (repeat pt_default nb) poly.

(** vpMbtPolygon::addPoint : the guard is commented out in the source,
    the store is unconditional. *)
Definition addPoint (n : nat) (P : vpPoint) (poly : vpMbtPolygon)
  : outcome vpMbtPolygon :=
  match store n P (p poly) with
  | Some a => Normal (with_p a poly)
  | None => Undefined
  end.

(** vpMbtPolygon::operator= when the source is the destination itself:
    the array is freed, and the fresh array of default points is copied
    onto itself. *)
Definition assign_self (this : vpMbtPolygon) : vpMbtPolygon :=
  mkPolygon (index this) (nbCornersInsidePrev this) (isvisible this)
            (isappearing this) (repeat pt_default (nbpt this))
            (roiPointsClip this) (clippingFlag this)
            (distFarClip this) (distFarClip this).

(** vpMbtPolygon::changeFrame *)
Definition changeFrame (cMo : vpHomogeneousMatrix) (poly : vpMbtPolygon)
  : vpMbtPolygon :=
  with_p (map (fun q => pt_projection (pt_changeFrame cMo q)) (p poly)) poly.

(** *** vpMbtPolygon::isVisible *)

(** [(double)nbpt] *)
Definition double_of_nat (n : nat) : float :=
  PrimFloat.of_uint63 (Uint63.of_Z (Z.of_nat n)).

Definition corner (i : nat) (poly : vpMbtPolygon) : vpPoint :=
  nth i (p poly) pt_default.

(** The sum [pt] of the corners, accumulated in a default point. *)
Definition corner_sum (pts : list vpPoint) : vpPoint :=
  fold_left (fun pt q =>
               set_Z (get_Z pt + get_Z q)%float
                 (set_Y (get_Y pt + get_Y q)%float
                    (set_X (get_X pt + get_X q)%float pt)))
            pts pt_default.

(** [angle], computed on the corners after [changeFrame]. *)
Definition face_angle (poly : vpMbtPolygon) : float :=
  let p0 := corner 0 poly in
  let p1 := corner 1 poly in
  let p2 := corner 2 poly in
  let e1 := ColVector (get_X p1 - get_X p0)%float (get_Y p1 - get_Y p0)%float
                      (get_Z p1 - get_Z p0)%float in
  let e2 := ColVector (get_X p2 - get_X p1)%float (get_Y p2 - get_Y p1)%float
                      (get_Z p2 - get_Z p1)%float in
  let e1 := col_normalize e1 in
  let e2 := col_normalize e2 in
  let facenormal := col_normalize (crossProd e1 e2) in
  let pt := corner_sum (p poly) in
  let n := double_of_nat (nbpt poly) in
  let e4 := col_normalize
              (ColVector (- get_X pt / n)%float (- get_Y pt / n)%float
                         (- get_Z pt / n)%float) in
  let cos_angle := dotProd e4 facenormal in
  acos cos_angle.

Definition isVisible (cMo : vpHomogeneousMatrix) (alpha : float)
    (modulo : bool) (poly : vpMbtPolygon) : bool * vpMbtPolygon :=
  if nbpt poly <=? 2 then
    (true, with_visibility true false poly)
  else
    let poly := changeFrame cMo poly in
    let angle := face_angle poly in
    if (angle <? alpha)%float then
      (true, with_visibility true false poly)
    else if modulo && (M_PI - angle <? alpha)%float then
      (true, with_visibility true false poly)
    else
      let appearing :=
        if (angle <? alpha + rad 1)%float then true
        else if modulo && (M_PI - angle <? alpha + rad 1)%float then true
        else false in
      (false, with_visibility false appearing poly).

(** *** Clipping of one edge *)

(** The four in/out arguments of the two clipping functions. *)
Record edge : Type := mkEdge {
  p1Clipped : vpPoint;
  p2Clipped : vpPoint;
  p1ClippedInfo : N;
  p2ClippedInfo : N
}.

Definition row_of (q : vpPoint) : vpRowVector :=
  RowVector (get_X q) (get_Y q) (get_Z q).

(** [beta]: the angle between the direction of [q] and [normal]. *)
Definition fov_angle (normal : vpColVector) (q : vpPoint) : float :=
  acos (row_mul_col (row_normalize (row_of q)) normal).

(** The point of the segment [p1 p2] on the plane through the origin of
    normal [normal]. *)
Definition fov_crossing (normal : vpColVector) (p1 p2 : vpPoint) : vpPoint :=
  let t := (- (c0 normal * get_X p1 + c1 normal * get_Y p1
               + c2 normal * get_Z p1))%float in
  let t := (t / (c0 normal * (get_X p2 - get_X p1)
                 + c1 normal * (get_Y p2 - get_Y p1)
                 + c2 normal * (get_Z p2 - get_Z p1)))%float in
  set_Z ((get_Z p2 - get_Z p1) * t + get_Z p1)%float
    (set_Y ((get_Y p2 - get_Y p1) * t + get_Y p1)%float
       (set_X ((get_X p2 - get_X p1) * t + get_X p1)%float pt_default)).

(** vpMbtPolygon::getClippedPointsFovGeneric.  It is a member function
    and reads [clippingFlag].  The caller passes the same objects for
    [p1], [p1Clipped] and for [p2], [p2Clipped]; every read of [p1], [p2]
    precedes the writes, so [e] holds both. *)
Definition getClippedPointsFovGeneric (poly : vpMbtPolygon) (p1 p2 : vpPoint)
    (e : edge) (normal : vpColVector) (flag : N) : bool * edge :=
  if (N.land (clippingFlag poly) flag =? flag)%N then
    let beta1 := fov_angle normal p1 in
    let beta2 := fov_angle normal p2 in
    if (beta1 <? M_PI / 2)%float && (beta2 <? M_PI / 2)%float then
      (false, e)
    else if (beta1 <? M_PI / 2)%float || (beta2 <? M_PI / 2)%float then
      let pClipped := fov_crossing normal p1 p2 in
      if (beta1 <? M_PI / 2)%float then
        (true, mkEdge pClipped (p2Clipped e)
                      (N.lor (p1ClippedInfo e) flag) (p2ClippedInfo e))
      else
        (true, mkEdge (p1Clipped e) pClipped
                      (p1ClippedInfo e) (N.lor (p2ClippedInfo e) flag))
    else (true, e)
  else (true, e).

(** The point of the segment on the plane [Z = distance]. *)
Definition distance_crossing (distance : float) (p1 p2 : vpPoint) : vpPoint :=
  let t := (get_Z p2 - get_Z p1)%float in
  let t := ((distance - get_Z p1) / t)%float in
  set_Z distance
    (set_Y ((get_Y p2 - get_Y p1) * t + get_Y p1)%float
       (set_X ((get_X p2 - get_X p1) * t + get_X p1)%float pt_default)).

(** vpMbtPolygon::getClippedPointsDistance *)
Definition getClippedPointsDistance (p1 p2 : vpPoint) (e : edge) (flag : N)
    (distance : float) : bool * edge :=
  let far := (flag =? FAR_CLIPPING)%N in
  let test1 :=
    if far then (distance <? get_Z p1)%float && (distance <? get_Z p2)%float
    else (get_Z p1 <? distance)%float && (get_Z p2 <? distance)%float in
  let test2 :=
    if far then (distance <? get_Z p1)%float || (distance <? get_Z p2)%float
    else (get_Z p1 <? distance)%float || (get_Z p2 <? distance)%float in
  let test3 :=
    if far then (distance <? get_Z p1)%float
    else (get_Z p1 <? distance)%float in
  if test1 then (false, mkEdge p1 p2 (p1ClippedInfo e) (p2ClippedInfo e))
  else if test2 then
    let pClippedNear := distance_crossing distance p1 p2 in
    if test3 then
      (true, mkEdge pClippedNear p2
                    (N.lor (p1ClippedInfo e)
                           (if far then FAR_CLIPPING else NEAR_CLIPPING))
                    (p2ClippedInfo e))
    else
      (true, mkEdge p1 pClippedNear (p1ClippedInfo e)
                    (N.lor (p2ClippedInfo e)
                           (if far then FAR_CLIPPING else NEAR_CLIPPING)))
  else (true, mkEdge p1 p2 (p1ClippedInfo e) (p2ClippedInfo e)).

(** *** vpMbtPolygon::computeRoiClipped *)

Definition fov_case (poly : vpMbtPolygon) (fovNormals : list vpColVector)
    (k : nat) (flag : N) (e : edge) : outcome (bool * edge) :=
  match nth_error fovNormals k with
  | Some normal =>
      let r := getClippedPointsFovGeneric poly (p1Clipped e) (p2Clipped e)
                 e normal flag in
      Normal (negb (fst r), snd r)
  | None => Undefined
  end.

(** The [switch(i)]: the value of [problem] and the four variables. *)
Definition clip_switch (poly : vpMbtPolygon) (fovNormals : list vpColVector)
    (i : N) (e : edge) : outcome (bool * edge) :=
  match i with
  | 1%N => let r := getClippedPointsDistance (p1Clipped e) (p2Clipped e) e i
                      (distNearClip poly) in
           Normal (negb (fst r), snd r)
  | 2%N => let r := getClippedPointsDistance (p1Clipped e) (p2Clipped e) e i
                      (distFarClip poly) in
           Normal (negb (fst r), snd r)
  | 4%N => fov_case poly fovNormals 0 LEFT_CLIPPING e
  | 8%N => fov_case poly fovNormals 1 RIGHT_CLIPPING e
  | 16%N => fov_case poly fovNormals 2 UP_CLIPPING e
  | 32%N => fov_case poly fovNormals 3 DOWN_CLIPPING e
  | _ => Normal (true, e)
  end.

Definition roi : Type := list (vpPoint * N).

(** The body of the loop on [j]: the new [roiPointsClipTemp2] and
    whether [break] was taken. *)
Definition clip_edge (poly : vpMbtPolygon) (fovNormals : list vpColVector)
    (i : N) (roiPointsClipTemp : roi) (j : nat) (roiPointsClipTemp2 : roi)
  : outcome (roi * bool) :=
  match nth_error roiPointsClipTemp j,
        nth_error roiPointsClipTemp (S j mod length roiPointsClipTemp) with
  | Some (a, ia), Some (b, p2ClippedInfoBefore) =>
      r <- clip_switch poly fovNormals i (mkEdge a b ia p2ClippedInfoBefore) ;;
      let problem := fst r in
      let e := snd r in
      if negb problem then
        let t2 := roiPointsClipTemp2
                    ++ [(pt_projection (p1Clipped e), p1ClippedInfo e)] in
        let t2 :=
          if negb (p2ClippedInfo e =? p2ClippedInfoBefore)%N
          then t2 ++ [(pt_projection (p2Clipped e), p2ClippedInfo e)]
          else t2 in
        if nbpt poly =? 2 then
          Normal (if (p2ClippedInfo e =? p2ClippedInfoBefore)%N
                  then t2 ++ [(pt_projection (p2Clipped e), p2ClippedInfo e)]
                  else t2, true)
        else Normal (t2, false)
      else Normal (roiPointsClipTemp2, false)
  | _, _ => Undefined
  end.

(** [for (j = 0; j < roiPointsClipTemp.size(); j++)], with [k] the number
    of indices left. *)
Fixpoint edge_loop (poly : vpMbtPolygon) (fovNormals : list vpColVector)
    (i : N) (roiPointsClipTemp : roi) (k j : nat) (roiPointsClipTemp2 : roi)
  : outcome roi :=
  match k with
  | O => Normal roiPointsClipTemp2
  | S k' =>
      r <- clip_edge poly fovNormals i roiPointsClipTemp j roiPointsClipTemp2 ;;
      if snd r then Normal (fst r)
      else edge_loop poly fovNormals i roiPointsClipTemp k' (S j) (fst r)
  end.

(** The condition under which plane [i] is clipped against. *)
Definition plane_active (clippingFlag i : N) : bool :=
  (N.land clippingFlag i =? i)%N
  || ((FAR_CLIPPING <? clippingFlag)%N && (i =? 1)%N).

(** [for (i = 1; i < 64; i = i*2)] on a 32-bit unsigned [i]; [fuel] bounds
    the number of iterations of the model. *)
Fixpoint plane_loop (fuel : nat) (poly : vpMbtPolygon)
    (fovNormals : list vpColVector) (i : N) (roiPointsClipTemp : roi)
  : outcome roi :=
  if (i <? 64)%N then
    match fuel with
    | O => Unfinished
    | S fuel' =>
        t <- (if plane_active (clippingFlag poly) i
              then edge_loop poly fovNormals i roiPointsClipTemp
                             (length roiPointsClipTemp) 0 []
              else Normal roiPointsClipTemp) ;;
        plane_loop fuel' poly fovNormals ((i * 2) mod 2 ^ 32)%N t
    end
  else Normal roiPointsClipTemp.

Definition plane_budget : nat := 64.

Definition computeRoiClipped (cam : vpCameraParameters) (poly : vpMbtPolygon)
  : outcome vpMbtPolygon :=
  let fovNormals :=
    if isFovComputed cam && (3 <? clippingFlag poly)%N
    then getFovNormals cam else [] in
  let roiPointsClipTemp :=
    map (fun i => (nth (i mod nbpt poly) (p poly) pt_default, NO_CLIPPING))
        (seq 0 (nbpt poly)) in
  t <- (if negb (clippingFlag poly =? NO_CLIPPING)%N
        then plane_loop plane_budget poly fovNormals 1 roiPointsClipTemp
        else Normal roiPointsClipTemp) ;;
  Normal (with_roiPointsClip t poly).

(** vpMbtPolygon::getRoiClipped(std::vector<vpPoint>&) *)
Definition getRoiClipped (points : list vpPoint) (poly : vpMbtPolygon)
  : list vpPoint :=
  points ++ map fst (roiPointsClip poly).

(** *** vpMbtPolygon::getClippedPolygon *)

(** [for (i = 0; i < ptIn.size(); i++) poly.addPoint(i, ptIn[i])] *)
Fixpoint add_points (i : nat) (ptIn : list vpPoint) (poly : vpMbtPolygon)
  : outcome vpMbtPolygon :=
  match ptIn with
  | [] => Normal poly
  | q :: rest => poly' <- addPoint i q poly ;; add_points (S i) rest poly'
  end.

Definition getClippedPolygon (ptIn : list vpPoint) (cMo : vpHomogeneousMatrix)
    (clippingFlags : N) (cam : vpCameraParameters) (znear zfar : float)
  : outcome (list vpPoint) :=
  let poly := vpMbtPolygon_new in
  let poly := setNbPoint (length ptIn) poly in
  let poly := setClipping clippingFlags poly in
  let poly :=
    if (N.land clippingFlags NEAR_CLIPPING =? NEAR_CLIPPING)%N
    then setNearClippingDistance znear poly else poly in
  let poly :=
    if (N.land clippingFlags FAR_CLIPPING =? FAR_CLIPPING)%N
    then setFarClippingDistance zfar poly else poly in
  poly <- add_points 0 ptIn poly ;;
  let poly := changeFrame cMo poly in
  poly <- computeRoiClipped cam poly ;;
  Normal (getRoiClipped [] poly).

End Polygon.

(** ** vpMbtPolygon::getMinMaxRoi *)

Definition INT_MAX : Z := 2147483647.
Definition INT_MIN : Z := -2147483648.

(** [static_cast<int>(d)]: the fractional part is discarded; the cast is
    undefined when the truncated value is not an [int], and for infinities
    and NaN. *)
Definition double_to_int (d : float) : outcome Z :=
  match Prim2SF d with
  | S754_zero _ => Normal 0%Z
  | S754_finite s m e =>
      let a := if (0 <=? e)%Z then (Z.pos m * 2 ^ e)%Z
               else (Z.pos m / 2 ^ (- e))%Z in
      let z := if s then (- a)%Z else a in
      if (INT_MIN <=? z)%Z && (z <=? INT_MAX)%Z then Normal z else Undefined
  | _ => Undefined
  end.

Record minmax : Type := mkMinMax {
  i_min_d : float; i_max_d : float; j_min_d : float; j_max_d : float
}.

(** One iteration of the loop over [iroi]. *)
Definition minmax_step (s : minmax) (ip : vpImagePoint) : minmax :=
  let imin := if (get_i ip <? i_min_d s)%float then get_i ip else i_min_d s in
  let imin := if (get_i ip <? 0)%float then 1%float else imin in
  let imax := if (0 <? get_i ip)%float && (i_max_d s <? get_i ip)%float
              then get_i ip else i_max_d s in
  let jmin := if (get_j ip <? j_min_d s)%float then get_j ip else j_min_d s in
  let jmin := if (get_j ip <? 0)%float then 1%float else jmin in
  let jmax := if (0 <? get_j ip)%float && (j_max_d s <? get_j ip)%float
              then get_j ip else j_max_d s in
  mkMinMax imin imax jmin jmax.

Definition minmax_init : minmax :=
  mkMinMax 2147483647%float 0%float 2147483647%float 0%float.

Definition minmax_scan (iroi : list vpImagePoint) : minmax :=
  fold_left minmax_step iroi minmax_init.

(** The four results, in the order [i_min], [i_max], [j_min], [j_max]. *)
Definition getMinMaxRoi (iroi : list vpImagePoint) : outcome (Z * Z * Z * Z) :=
  let s := minmax_scan iroi in
  i_min <- double_to_int (i_min_d s) ;;
  i_max <- double_to_int (i_max_d s) ;;
  j_min <- double_to_int (j_min_d s) ;;
  j_max <- double_to_int (j_max_d s) ;;
  Normal (i_min, i_max, j_min, j_max).

(** ** A reference instance of the library

    The theorems below hold for every instance of [ViSP].  This one
    evaluates the model on concrete polygons. *)
Module Ref.
Local Open Scope float_scope.

(** Rigid transform: the rotation rows and the translation. *)
Record HMatrix : Type := mkH {
  r11 : float; r12 : float; r13 : float; tx : float;
  r21 : float; r22 : float; r23 : float; ty : float;
  r31 : float; r32 : float; r33 : float; tz : float
}.

Definition identity : HMatrix := mkH 1 0 0 0  0 1 0 0  0 0 1 0.

Definition M_PI : float := 3.14159265358979323846.

Definition rad (deg : float) : float := (deg * M_PI) / 180.

(** Arc tangent: three halvings of the angle, then the power series. *)
Definition atan_series (t : float) : float :=
  let u := t * t in
  t * (1 - u * (1 / 3 - u * (1 / 5 - u * (1 / 7 - u * (1 / 9
       - u * (1 / 11 - u * (1 / 13 - u * (1 / 15 - u / 17)))))))).

Definition atan_half (t : float) : float := t / (1 + sqrt (1 + t * t)).

Definition atan_unit (t : float) : float :=
  8 * atan_series (atan_half (atan_half (atan_half t))).

Definition atan (t : float) : float :=
  if 1 <? t then M_PI / 2 - atan_unit (1 / t) else atan_unit t.

(** Arc cosine on [-1, 1], exact at both ends; NaN outside. *)
Definition acos (c : float) : float :=
  if c =? 1 then 0
  else if c =? -1 then M_PI
  else 2 * atan (sqrt ((1 - c) / (1 + c))).

Definition col_normalize (v : vpColVector) : vpColVector :=
  let n := sqrt (c0 v * c0 v + c1 v * c1 v + c2 v * c2 v) in
  ColVector (c0 v / n) (c1 v / n) (c2 v / n).

Definition crossProd (a b : vpColVector) : vpColVector :=
  ColVector (c1 a * c2 b - c2 a * c1 b)
            (c2 a * c0 b - c0 a * c2 b)
            (c0 a * c1 b - c1 a * c0 b).

Definition dotProd (a b : vpColVector) : float :=
  c0 a * c0 b + c1 a * c1 b + c2 a * c2 b.

Definition row_normalize (v : vpRowVector) : vpRowVector :=
  let n := sqrt (r0 v * r0 v + r1 v * r1 v + r2 v * r2 v) in
  RowVector (r0 v / n) (r1 v / n) (r2 v / n).

Definition row_mul_col (a : vpRowVector) (b : vpColVector) : float :=
  r0 a * c0 b + r1 a * c1 b + r2 a * c2 b.

Definition pt_default : vpPoint := mkPoint 0 0 0 0 0 0 0 0.

(** Modelled from the spec: vpPoint::changeFrame, whose code is not part
    of the file; the rigid transform from the object frame to the camera
    frame. *)
Definition pt_changeFrame (cMo : HMatrix) (q : vpPoint) : vpPoint :=
  mkPoint (get_oX q) (get_oY q) (get_oZ q)
    (r11 cMo * get_oX q + r12 cMo * get_oY q + r13 cMo * get_oZ q + tx cMo)
    (r21 cMo * get_oX q + r22 cMo * get_oY q + r23 cMo * get_oZ q + ty cMo)
    (r31 cMo * get_oX q + r32 cMo * get_oY q + r33 cMo * get_oZ q + tz cMo)
    (get_x q) (get_y q).

(** Modelled from the spec: vpPoint::projection, whose code is not part
    of the file; it recomputes the normalized image-plane coordinates
    from the camera-frame ones. *)
Definition pt_projection (q : vpPoint) : vpPoint :=
  let d := 1 / get_Z q in
  mkPoint (get_oX q) (get_oY q) (get_oZ q) (get_X q) (get_Y q) (get_Z q)
          (get_X q * d) (get_Y q * d).

Definition visp : ViSP :=
  Build_ViSP acos M_PI rad col_normalize crossProd dotProd
             row_normalize row_mul_col pt_default pt_changeFrame pt_projection.

(** A point given by its object-frame coordinates. *)
Definition pt (X Y Z : float) : vpPoint := mkPoint X Y Z 0 0 0 0 0.

(** A point already in the camera frame, with its projection. *)
Definition cpt (X Y Z : float) : vpPoint :=
  pt_projection (pt_changeFrame identity (pt X Y Z)).

End Ref.

(** ** The two clipping formulas, on any arithmetic

    The expressions of [getClippedPointsFovGeneric] and of
    [getClippedPointsDistance], with the operations as parameters: on
    binary64 they are what the code evaluates, on the rationals they are
    the exact points. *)
Section Formulas.
Variable T : Type.
Variables add sub mul div : T -> T -> T.
Variable opp : T -> T.

(** [(b - a) * t + a]: the point of parameter [t] from [a] to [b]. *)
Definition along (t a b : T) : T := add (mul (sub b a) t) a.

(** [t = -(n . p1) / (n . (p2 - p1))] *)
Definition plane_parameter (n0 n1 n2 x1 y1 z1 x2 y2 z2 : T) : T :=
  div (opp (add (add (mul n0 x1) (mul n1 y1)) (mul n2 z1)))
      (add (add (mul n0 (sub x2 x1)) (mul n1 (sub y2 y1)))
           (mul n2 (sub z2 z1))).

(** [t = (distance - z1) / (z2 - z1)] *)
Definition depth_parameter (distance z1 z2 : T) : T :=
  div (sub distance z1) (sub z2 z1).

End Formulas.

Definition falong : float -> float -> float -> float :=
  along PrimFloat.add PrimFloat.sub PrimFloat.mul.
Definition fplane_parameter
  : float -> float -> float -> float -> float -> float -> float -> float
    -> float -> float :=
  plane_parameter PrimFloat.add PrimFloat.sub PrimFloat.mul PrimFloat.div
                  PrimFloat.opp.
Definition fdepth_parameter : float -> float -> float -> float :=
  depth_parameter PrimFloat.sub PrimFloat.div.

Definition Qalong : Q -> Q -> Q -> Q := along Qplus Qminus Qmult.
Definition Qplane_parameter : Q -> Q -> Q -> Q -> Q -> Q -> Q -> Q -> Q -> Q :=
  plane_parameter Qplus Qminus Qmult Qdiv Qopp.
Definition Qdepth_parameter : Q -> Q -> Q -> Q :=
  depth_parameter Qminus Qdiv.

(** A default point moved to the camera-frame coordinates [X], [Y], [Z]. *)
Definition point_at {V : ViSP} (X Y Z : float) : vpPoint :=
  set_Z Z (set_Y Y (set_X X pt_default)).

(** ** Statements of the specification *)

(** The six planes, in the order of their bits. *)
Definition planes : list N :=
  [NEAR_CLIPPING; FAR_CLIPPING; LEFT_CLIPPING; RIGHT_CLIPPING;
   UP_CLIPPING; DOWN_CLIPPING].

(** A plane takes part when its bit is set in the mask; the near plane
    also when a field-of-view bit is set. *)
Definition participates (clipMask plane : N) : bool :=
  (N.land clipMask plane =? plane)%N
  || ((plane =? NEAR_CLIPPING)%N
      && negb (N.land clipMask FOV_CLIPPING =? 0)%N).

Section Specification.
Context {V : ViSP}.

(** Clipping against the planes [ps], one after the other, the list
    produced for a plane being the input of the next. *)
Fixpoint clip_against (poly : vpMbtPolygon) (fovNormals : list vpColVector)
    (ps : list N) (working : roi) : outcome roi :=
  match ps with
  | [] => Normal working
  | i :: rest =>
      t <- edge_loop poly fovNormals i working (length working) 0 [] ;;
      clip_against poly fovNormals rest t
  end.

(** The working list before the first plane: every corner, tagged with
    no plane. *)
Definition working_list (poly : vpMbtPolygon) : roi :=
  map (fun q => (q, NO_CLIPPING)) (p poly).

(** The normals handed to the field-of-view cases. *)
Definition normals_in_use (cam : vpCameraParameters) (poly : vpMbtPolygon)
  : list vpColVector :=
  if isFovComputed cam && (3 <? clippingFlag poly)%N
  then getFovNormals cam else [].

(** The sentence of the specification on [getClippedPolygon], read
    literally: a polygon with the given points, mask and both distances. *)
Definition clipped_polygon_spec (ptIn : list vpPoint)
    (cMo : vpHomogeneousMatrix) (clipMask : N) (cam : vpCameraParameters)
    (near far : float) : outcome (list vpPoint) :=
  let poly := mkPolygon (-1) 0 false false ptIn [] clipMask near far in
  poly <- computeRoiClipped cam (changeFrame cMo poly) ;;
  Normal (map fst (roiPointsClip poly)).

(** The distances of the transient polygon of [getClippedPolygon]: the
    caller's value when the plane's bit is set in the mask, the
    constructor's default otherwise. *)
Definition near_in_use (clipMask : N) (znear : float) : float :=
  if (N.land clipMask NEAR_CLIPPING =? NEAR_CLIPPING)%N
  then znear else 0.001%float.
Definition far_in_use (clipMask : N) (zfar : float) : float :=
  if (N.land clipMask FAR_CLIPPING =? FAR_CLIPPING)%N
  then zfar else 100%float.

(** An endpoint on the side of a field-of-view plane that the sentence of
    the specification calls inside: angle below a right angle. *)
Definition below_right_angle (normal : vpColVector) (q : vpPoint) : bool :=
  (fov_angle normal q <? M_PI / 2)%float.

End Specification.

(** The side of plane [i] from which [computeRoiClipped] keeps a point:
    not nearer than the near distance, not farther than the far distance,
    at an angle to the plane's normal that is not below a right angle. *)
Definition kept {V : ViSP} (poly : vpMbtPolygon)
    (fovNormals : list vpColVector) (i : N) (q : vpPoint) : Prop :=
  match i with
  | 1%N => (get_Z q <? distNearClip poly)%float = false
  | 2%N => (distFarClip poly <? get_Z q)%float = false
  | 4%N => exists n, nth_error fovNormals 0 = Some n
                     /\ below_right_angle n q = false
  | 8%N => exists n, nth_error fovNormals 1 = Some n
                     /\ below_right_angle n q = false
  | 16%N => exists n, nth_error fovNormals 2 = Some n
                      /\ below_right_angle n q = false
  | 32%N => exists n, nth_error fovNormals 3 = Some n
                      /\ below_right_angle n q = false
  | _ => False
  end.

(** The normal of the field-of-view plane [i] is [fovNormals[fov_index i]]. *)
Definition fov_index (i : N) : option nat :=
  match i with
  | 4%N => Some 0 | 8%N => Some 1 | 16%N => Some 2 | 32%N => Some 3
  | _ => None
  end.

(** A vertex of the working list after [projection()]. *)
Definition reprojected {V : ViSP} (x : vpPoint * N) : vpPoint * N :=
  (pt_projection (fst x), snd x).

(** A corner strictly on the side of every plane that the code keeps:
    beyond the near distance, before the far distance, and at more than a
    right angle to each of the four normals. *)
Definition strictly_kept {V : ViSP} (cam : vpCameraParameters)
    (poly : vpMbtPolygon) (q : vpPoint) : Prop :=
  (distNearClip poly <? get_Z q)%float = true
  /\ (get_Z q <? distFarClip poly)%float = true
  /\ Forall (fun n => (M_PI / 2 <? fov_angle n q)%float = true)
            (getFovNormals cam).

(** The same corner in the words of the specification, where inside a
    field-of-view half-space is an angle below a right angle. *)
Definition strictly_inside_spec {V : ViSP} (cam : vpCameraParameters)
    (poly : vpMbtPolygon) (q : vpPoint) : Prop :=
  (distNearClip poly <? get_Z q)%float = true
  /\ (get_Z q <? distFarClip poly)%float = true
  /\ Forall (fun n => below_right_angle n q = true) (getFovNormals cam).


(** ** Concrete scenes *)
Module Scene.
Local Open Scope float_scope.

(** Unit normals of the four side planes of a frustum, pointing out of
    it, and the same normals pointing into it. *)
Definition outward : list vpColVector :=
  [ColVector (-0.8) 0 (-0.6); ColVector 0.8 0 (-0.6);
   ColVector 0 (-0.8) (-0.6); ColVector 0 0.8 (-0.6)].
Definition inward : list vpColVector :=
  [ColVector 0.8 0 0.6; ColVector (-0.8) 0 0.6;
   ColVector 0 0.8 0.6; ColVector 0 (-0.8) 0.6].

Definition cam : vpCameraParameters := mkCam true outward.
Definition cam_inward : vpCameraParameters := mkCam true inward.

(** A triangle two units in front of the camera. *)
Definition corners : list vpPoint :=
  [Ref.cpt 0 0 2; Ref.cpt 1 0 2; Ref.cpt 0 1 2].
Definition triangle (clipMask : N) : vpMbtPolygon :=
  mkPolygon (-1) 0 false false corners [] clipMask 0.001 100.

(** A small triangle a tenth of a unit in front of the camera. *)
Definition close_corners : list vpPoint :=
  [Ref.pt 0 0 0.1; Ref.pt 0.01 0 0.1; Ref.pt 0 0.01 0.1].

(** A segment across the near plane. *)
Definition segment : vpMbtPolygon :=
  mkPolygon (-1) 0 false false [Ref.cpt 1 2 0.0005; Ref.cpt 3 4 0.01] []
            NEAR_CLIPPING 0.001 100.

End Scene.

(** ** The image side of the polygon *)

(** vpMeterPixelConversion::convertPoint, from normalized coordinates to
    an image point, is library code as well. *)
Class MeterPixel : Type := {
  convertPoint : vpCameraParameters -> float -> float -> vpImagePoint
}.

Definition with_nbCornersInsidePrev (n : nat) (poly : vpMbtPolygon)
  : vpMbtPolygon :=
  mkPolygon (index poly) n (isvisible poly) (isappearing poly) (p poly)
            (roiPointsClip poly) (clippingFlag poly)
            (distNearClip poly) (distFarClip poly).

(** The test on an image point shared by [getNbCornerInsideImage] and
    [roiInsideImage]; [height] and [width] are [I.getHeight()] and
    [I.getWidth()], converted to [double] by the comparison. *)
Definition inside_image (height width : nat) (ip : vpImagePoint) : bool :=
  (0 <=? get_i ip)%float && (0 <=? get_j ip)%float
  && (get_i ip <? double_of_nat height)%float
  && (get_j ip <? double_of_nat width)%float.

(** vpMbtPolygon::roiInsideImage; [nbPolyIn] is a [double]. *)
Definition roiInsideImage (height width : nat) (corners : list vpImagePoint)
  : bool :=
  let nbPolyIn :=
    fold_left (fun n ip => if inside_image height width ip
                           then (n + 1)%float else n)
              corners 0%float in
  if (nbPolyIn <? 3)%float
     && (nbPolyIn <? 0.7 * double_of_nat (length corners))%float
  then false else true.

Section Image.
Context {V : ViSP} {C : MeterPixel}.

Definition image_point (cam : vpCameraParameters) (q : vpPoint)
  : vpImagePoint :=
  convertPoint cam (get_x q) (get_y q).

(** vpMbtPolygon::getRoi(cam) *)
Definition getRoi (cam : vpCameraParameters) (poly : vpMbtPolygon)
  : list vpImagePoint :=
  map (image_point cam) (p poly).

(** vpMbtPolygon::getRoi(cam, cMo) *)
Definition getRoi_pose (cam : vpCameraParameters) (cMo : vpHomogeneousMatrix)
    (poly : vpMbtPolygon) : list vpImagePoint * vpMbtPolygon :=
  let poly := changeFrame cMo poly in
  (getRoi cam poly, poly).

(** vpMbtPolygon::getRoiClipped(cam, std::vector<vpImagePoint>&) *)
Definition getRoiClipped_image (cam : vpCameraParameters)
    (roi : list vpImagePoint) (poly : vpMbtPolygon) : list vpImagePoint :=
  roi ++ map (fun x => image_point cam (fst x)) (roiPointsClip poly).

(** vpMbtPolygon::getRoiClipped(cam, std::vector<vpImagePoint>&, cMo) *)
Definition getRoiClipped_image_pose (cam : vpCameraParameters)
    (roi : list vpImagePoint) (cMo : vpHomogeneousMatrix)
    (poly : vpMbtPolygon) : outcome (list vpImagePoint * vpMbtPolygon) :=
  let poly := changeFrame cMo poly in
  poly <- computeRoiClipped cam poly ;;
  Normal (getRoiClipped_image cam roi poly, poly).

(** vpMbtPolygon::getRoiClipped(cam, std::vector<std::pair<vpImagePoint,
    unsigned int> >&): each stored vertex is projected in place before
    its conversion. *)
Definition getRoiClipped_info (cam : vpCameraParameters)
    (roi : list (vpImagePoint * N)) (poly : vpMbtPolygon)
  : list (vpImagePoint * N) * vpMbtPolygon :=
  let clip := map reprojected (roiPointsClip poly) in
  (roi ++ map (fun x => (image_point cam (fst x), snd x)) clip,
   with_roiPointsClip clip poly).

(** The same with the pose. *)
Definition getRoiClipped_info_pose (cam : vpCameraParameters)
    (roi : list (vpImagePoint * N)) (cMo : vpHomogeneousMatrix)
    (poly : vpMbtPolygon)
  : outcome (list (vpImagePoint * N) * vpMbtPolygon) :=
  let poly := changeFrame cMo poly in
  poly <- computeRoiClipped cam poly ;;
  Normal (getRoiClipped_info cam roi poly).

(** vpMbtPolygon::getNbCornerInsideImage; the count is also stored in
    [nbCornersInsidePrev]. *)
Definition getNbCornerInsideImage (height width : nat)
    (cam : vpCameraParameters) (poly : vpMbtPolygon) : nat * vpMbtPolygon :=
  let nbPolyIn :=
    fold_left (fun n q =>
                 if (0 <? get_Z q)%float
                 then if inside_image height width (image_point cam q)
                      then S n else n
                 else n)
              (p poly) 0 in
  (nbPolyIn, with_nbCornersInsidePrev nbPolyIn poly).

(** The deprecated vpMbtPolygon::isVisible(cMo, depthTest).  Its last
    call leaves [modulo] to the default argument of the declaration, which
    is in the header: [modulo] is that default. *)
Definition isVisible_depthTest (modulo : bool) (cMo : vpHomogeneousMatrix)
    (depthTest : bool) (poly : vpMbtPolygon) : bool * vpMbtPolygon :=
  let poly := changeFrame cMo poly in
  if depthTest && existsb (fun q => (get_Z q <? 0)%float) (p poly)
  then (false, with_visibility false false poly)
  else isVisible cMo (rad 89) modulo poly.

End Image.

(** A vertex of a boundary that carries its own projection. *)
Definition projected {V : ViSP} (x : vpPoint * N) : Prop :=
  pt_projection (fst x) = fst x.

(** Two polygons with the same corners, mask and clip distances. *)
Definition same_clipping (a b : vpMbtPolygon) : Prop :=
  p a = p b /\ clippingFlag a = clippingFlag b
  /\ distNearClip a = distNearClip b /\ distFarClip a = distFarClip b.

(** The bits of the planes taking part for a mask. *)
Definition planes_in_use (clipMask : N) : N :=
  fold_right N.lor 0%N (filter (participates clipMask) planes).

(** A reference conversion: focal lengths of 600 pixels, principal point
    (320, 240). *)
Module RefImage.
Local Open Scope float_scope.

Definition convertPoint (cam : vpCameraParameters) (x y : float)
  : vpImagePoint :=
  ImagePoint (y * 600 + 240) (x * 600 + 320).

Definition meterPixel : MeterPixel := Build_MeterPixel convertPoint.

End RefImage.

(** * Properties *)

Section Entity.
Context {V : ViSP}.

(** C3 (as amended): for every index at or beyond the corner count,
    [getPoint] throws [dimensionError] without reading the array, and
    [addPoint], which has no bounds check, throws nothing: its store is
    outside the array. *)
Theorem getPoint_throws_addPoint_unchecked (poly : vpMbtPolygon) (i : nat)
    (P : vpPoint) :
  nbpt poly <= i ->
  getPoint i poly = Throws dimensionError /\ addPoint i P poly = Undefined.
Proof.
  intros Hi. split.
  - unfold getPoint. apply Nat.leb_le in Hi. now rewrite Hi.
  - unfold addPoint, nbpt in *.
    assert (Hs : store i P (p poly) = None).
    { clear -Hi. revert i Hi.
      induction (p poly) as [|h t IH]; intros i Hi; [reflexivity|].
      destruct i as [|i]; simpl in *; [lia|].
      rewrite IH by lia. reflexivity. }
    now rewrite Hs.
Qed.

(** In range, [addPoint] replaces the corner and nothing else. *)
Lemma addPoint_in_range (poly : vpMbtPolygon) (i : nat) (P : vpPoint) :
  i < nbpt poly ->
  exists a, addPoint i P poly = Normal (with_p a poly)
            /\ length a = nbpt poly /\ nth_error a i = Some P.
Proof.
  unfold addPoint, nbpt. generalize (p poly) as l. intros l. revert i.
  induction l as [|h t IH]; intros i Hi; simpl in *; [lia|].
  destruct i as [|i].
  - exists (P :: t). auto.
  - destruct (IH i) as (a & Ha & Hl & Hn); [lia|].
    destruct (store i P t) as [a'|] eqn:E; [|discriminate].
    injection Ha as Ha. simpl. exists (h :: a'). simpl.
    assert (a' = a) by (now destruct poly; inversion Ha). subst a'.
    repeat split; auto.
Qed.

(** After [changeFrame] every corner carries its own projection, when a
    second [projection()] changes nothing. *)
Lemma changeFrame_projected (cMo : vpHomogeneousMatrix) (poly : vpMbtPolygon) :
  (forall q, pt_projection (pt_projection q) = pt_projection q) ->
  Forall (fun q => pt_projection q = q) (p (changeFrame cMo poly)).
Proof.
  intros Hidem. unfold changeFrame. simpl.
  apply Forall_forall. intros q Hq. apply in_map_iff in Hq.
  destruct Hq as (q0 & <- & _). apply Hidem.
Qed.

(** C10: a polygon of at most two corners is visible whatever the pose and
    the threshold; the call sets [isvisible], clears [isappearing] and
    leaves the corners as they were, camera-frame coordinates and
    projections included. *)
Theorem isVisible_line (cMo : vpHomogeneousMatrix) (alpha : float)
    (modulo : bool) (poly : vpMbtPolygon) :
  nbpt poly <= 2 ->
  fst (isVisible cMo alpha modulo poly) = true
  /\ isvisible (snd (isVisible cMo alpha modulo poly)) = true
  /\ isappearing (snd (isVisible cMo alpha modulo poly)) = false
  /\ p (snd (isVisible cMo alpha modulo poly)) = p poly.
Proof.
  intros Hn. unfold isVisible.
  apply Nat.leb_le in Hn. rewrite Hn. simpl. auto.
Qed.



End Entity.

(** C2: [operator=] on a destination whose far distance is 50 and a
    freshly constructed source (near 0.001, far 100): the destination's
    near distance becomes the source's far distance and its far distance
    stays 50. *)
Theorem assign_clip_distances :
  let dst := setFarClippingDistance 50 vpMbtPolygon_new in
  let src := vpMbtPolygon_new in
  distNearClip src = 0.001%float /\ distFarClip src = 100%float
  /\ distNearClip (assign dst src) = 100%float
  /\ distFarClip (assign dst src) = 50%float.
Proof. repeat split. Qed.

(** Whatever the two polygons, [operator=] copies every member from the
    member of the same name, except the two distances. *)
Lemma assign_members (this mbtp : vpMbtPolygon) :
  assign this mbtp
  = mkPolygon (index mbtp) (nbCornersInsidePrev mbtp) (isvisible mbtp)
              (isappearing mbtp) (p mbtp) (roiPointsClip mbtp)
              (clippingFlag mbtp) (distFarClip mbtp) (distFarClip this).
Proof. reflexivity. Qed.

(** C3 (as stated) fails: on the empty polygon, [addPoint] at index 0
    does not throw. *)
Lemma addPoint_does_not_throw :
  ~ (forall (poly : vpMbtPolygon) (i : nat) (P : vpPoint),
        nbpt poly <= i ->
        getPoint i poly = Throws dimensionError
        /\ addPoint i P poly = Throws dimensionError).
Proof.
  intros H.
  destruct (H vpMbtPolygon_new 0 Ref.pt_default (Nat.le_refl 0)) as [_ H2].
  discriminate H2.
Qed.

Lemma getPoint_throws_addPoint_unchecked_witness :
  nbpt vpMbtPolygon_new <= 0
  /\ getPoint 0 vpMbtPolygon_new = Throws dimensionError
  /\ addPoint 0 Ref.pt_default vpMbtPolygon_new = Undefined.
Proof.
  split; [apply Nat.le_refl|].
  apply (getPoint_throws_addPoint_unchecked vpMbtPolygon_new Ref.pt_default
           (Nat.le_refl 0)).
Defined.

(** ** The loop over the planes *)

Lemma bind_ext {A B : Type} (m : outcome A) (k1 k2 : A -> outcome B) :
  (forall a, k1 a = k2 a) -> bind m k1 = bind m k2.
Proof. intros H. destruct m; simpl; auto. Qed.

Lemma nth_seq_self {A : Type} (d : A) (l : list A) :
  map (fun i => nth i l d) (seq 0 (length l)) = l.
Proof.
  induction l as [|h t IH]; simpl; [reflexivity|].
  f_equal. rewrite <- seq_shift, map_map. exact IH.
Qed.

Lemma masks_below_64 (P : N -> bool) :
  forallb P (map N.of_nat (seq 0 64)) = true ->
  forall m : N, (m < 64)%N -> P m = true.
Proof.
  intros HP m Hm. rewrite forallb_forall in HP. apply HP.
  rewrite <- (N2Nat.id m). apply in_map. apply in_seq. lia.
Qed.

Lemma plane_active_participates (clipMask i : N) :
  (clipMask < 64)%N -> In i planes ->
  plane_active clipMask i = participates clipMask i.
Proof.
  intros Hm Hi.
  assert (H1 : plane_active clipMask 1 = participates clipMask 1).
  { apply eqb_prop. revert clipMask Hm.
    apply (masks_below_64
             (fun m => eqb (plane_active m 1) (participates m 1))).
    vm_compute. reflexivity. }
  unfold planes in Hi. simpl in Hi.
  destruct Hi as [<-|[<-|[<-|[<-|[<-|[<-|[]]]]]]]; try exact H1;
    unfold plane_active, participates; simpl;
    now rewrite andb_false_r.
Qed.

Section Planes.
Context {V : ViSP}.
Variable poly : vpMbtPolygon.
Variable fovNormals : list vpColVector.

Lemma working_list_initial :
  map (fun i => (nth (i mod nbpt poly) (p poly) pt_default, NO_CLIPPING))
      (seq 0 (nbpt poly))
  = working_list poly.
Proof.
  unfold working_list, nbpt.
  transitivity (map (fun q : vpPoint => (q, NO_CLIPPING))
                  (map (fun i => nth i (p poly) pt_default)
                       (seq 0 (length (p poly))))).
  - rewrite map_map. apply map_ext_in. intros i Hi. apply in_seq in Hi.
    rewrite Nat.mod_small by lia. reflexivity.
  - now rewrite nth_seq_self.
Qed.

Lemma plane_loop_step (fuel : nat) (i : N) (t : roi) :
  (i <? 64)%N = true ->
  plane_loop (S fuel) poly fovNormals i t
  = (t' <- (if plane_active (clippingFlag poly) i
            then edge_loop poly fovNormals i t (length t) 0 []
            else Normal t) ;;
     plane_loop fuel poly fovNormals ((i * 2) mod 2 ^ 32)%N t').
Proof. intros Hi. simpl. rewrite Hi. reflexivity. Qed.

Lemma plane_loop_exit (fuel : nat) (i : N) (t : roi) :
  (i <? 64)%N = false -> plane_loop fuel poly fovNormals i t = Normal t.
Proof. intros Hi. destruct fuel; simpl; rewrite Hi; reflexivity. Qed.

Lemma clip_against_filter (f : N -> bool) (i : N) (rest : list N) (t : roi) :
  clip_against poly fovNormals (filter f (i :: rest)) t
  = (t' <- (if f i then edge_loop poly fovNormals i t (length t) 0 []
            else Normal t) ;;
     clip_against poly fovNormals (filter f rest) t').
Proof. simpl. destruct (f i); reflexivity. Qed.

(** The loop visits 1, 2, 4, 8, 16, 32 and stops at 64, within the
    budget. *)
Lemma plane_loop_planes (t : roi) :
  (clippingFlag poly < 64)%N ->
  plane_loop plane_budget poly fovNormals 1 t
  = clip_against poly fovNormals
      (filter (participates (clippingFlag poly)) planes) t.
Proof.
  intros Hm. unfold plane_budget, planes. revert t.
  do 6 (intros t; rewrite plane_loop_step by reflexivity;
        rewrite clip_against_filter;
        rewrite plane_active_participates
          by (assumption || (unfold planes; simpl; tauto));
        apply bind_ext; clear t).
  intros t. apply plane_loop_exit. reflexivity.
Qed.

End Planes.

Section PlaneOrder.
Context {V : ViSP}.

(** [computeRoiClipped] as a clipping against the planes that take
    part, in the order of [planes]. *)
Lemma computeRoiClipped_clip_against (cam : vpCameraParameters)
    (poly : vpMbtPolygon) :
  (clippingFlag poly < 64)%N ->
  computeRoiClipped cam poly
  = (t <- clip_against poly (normals_in_use cam poly)
            (filter (participates (clippingFlag poly)) planes)
            (working_list poly) ;;
     Normal (with_roiPointsClip t poly)).
Proof.
  intros Hm.
  unfold computeRoiClipped. rewrite working_list_initial.
  fold (normals_in_use cam poly).
  destruct (clippingFlag poly =? NO_CLIPPING)%N eqn:E.
  - apply N.eqb_eq in E. rewrite E. reflexivity.
  - simpl negb. cbv iota. rewrite plane_loop_planes by assumption.
    reflexivity.
Qed.

(** C4: for a non-empty mask over the six planes, [computeRoiClipped]
    clips the list of corners against the planes NEAR, FAR, LEFT, RIGHT,
    UP, DOWN in this order, a plane taking part exactly when its bit is
    set in the mask, and NEAR also when a bit of LEFT, RIGHT, UP or DOWN
    is set. *)
Theorem computeRoiClipped_plane_order (cam : vpCameraParameters)
    (poly : vpMbtPolygon) :
  (0 < clippingFlag poly < 64)%N ->
  planes = [1; 2; 4; 8; 16; 32]%N
  /\ (forall i, participates (clippingFlag poly) i = true <->
                 N.land (clippingFlag poly) i = i
                 \/ (i = NEAR_CLIPPING
                     /\ N.land (clippingFlag poly) FOV_CLIPPING <> 0%N))
  /\ computeRoiClipped cam poly
     = (t <- clip_against poly (normals_in_use cam poly)
               (filter (participates (clippingFlag poly)) planes)
               (working_list poly) ;;
        Normal (with_roiPointsClip t poly)).
Proof.
  intros [Hpos Hm]. split; [reflexivity|]. split.
  - intros i. unfold participates.
    rewrite orb_true_iff, andb_true_iff, negb_true_iff.
    rewrite !N.eqb_eq, N.eqb_neq. reflexivity.
  - now apply computeRoiClipped_clip_against.
Qed.

End PlaneOrder.

(** ** Clipping of one edge against a field-of-view plane *)

Section FovPlane.
Context {V : ViSP}.

(** A problem reported by the [switch] leaves [roiPointsClipTemp2] as it
    was: the edge contributes nothing. *)
Lemma clip_edge_problem (poly : vpMbtPolygon) (fovNormals : list vpColVector)
    (i : N) (t : roi) (j : nat) (t2 : roi) (a b : vpPoint) (ia ib : N)
    (e : edge) :
  nth_error t j = Some (a, ia) ->
  nth_error t (S j mod length t) = Some (b, ib) ->
  clip_switch poly fovNormals i (mkEdge a b ia ib) = Normal (true, e) ->
  clip_edge poly fovNormals i t j t2 = Normal (t2, false).
Proof.
  intros Ha Hb Hs. unfold clip_edge. rewrite Ha, Hb, Hs. reflexivity.
Qed.

Lemma fov_index_cases (i : N) (k : nat) :
  fov_index i = Some k ->
  (i = LEFT_CLIPPING /\ k = 0) \/ (i = RIGHT_CLIPPING /\ k = 1)
  \/ (i = UP_CLIPPING /\ k = 2) \/ (i = DOWN_CLIPPING /\ k = 3).
Proof.
  unfold fov_index. intros H.
  repeat match type of H with
         | context [match ?x with _ => _ end] =>
             destruct x; try discriminate H
         end;
    injection H as <-; auto.
Qed.

Lemma clip_switch_fov (poly : vpMbtPolygon) (fovNormals : list vpColVector)
    (i : N) (k : nat) (e : edge) :
  fov_index i = Some k ->
  clip_switch poly fovNormals i e = fov_case poly fovNormals k i e.
Proof.
  intros H.
  destruct (fov_index_cases _ H) as [[-> ->]|[[-> ->]|[[-> ->]|[-> ->]]]];
    reflexivity.
Qed.

Lemma fov_crossing_formula (normal : vpColVector) (a b : vpPoint) :
  fov_crossing normal a b
  = let t := fplane_parameter (c0 normal) (c1 normal) (c2 normal)
                              (get_X a) (get_Y a) (get_Z a)
                              (get_X b) (get_Y b) (get_Z b) in
    point_at (falong t (get_X a) (get_X b)) (falong t (get_Y a) (get_Y b))
             (falong t (get_Z a) (get_Z b)).
Proof. reflexivity. Qed.

(** On the rationals the point of that parameter is on the plane through
    the origin of normal [n], and it is on the line of the two points by
    the form of [along]. *)
Lemma plane_parameter_exact (n0 n1 n2 x1 y1 z1 x2 y2 z2 : Q) :
  (~ n0 * (x2 - x1) + n1 * (y2 - y1) + n2 * (z2 - z1) == 0)%Q ->
  let t := Qplane_parameter n0 n1 n2 x1 y1 z1 x2 y2 z2 in
  (n0 * Qalong t x1 x2 + n1 * Qalong t y1 y2 + n2 * Qalong t z1 z2 == 0)%Q.
Proof.
  intros Hden. unfold Qplane_parameter, Qalong, plane_parameter, along.
  field. exact Hden.
Qed.

(** C1 (as amended): for each of the planes LEFT, RIGHT, UP, DOWN set in
    the mask, an endpoint of the edge [j] is on the discarded side exactly
    when the angle between its direction and the plane's normal is below
    a right angle.  An edge with both endpoints there adds nothing to the
    new list.  An edge with neither adds its first endpoint, as it is and
    with its tag (the second is added by the next edge, or at once when
    the polygon has two corners).  A straddling edge adds, in the place of
    the endpoint below the right angle, the point of the segment of
    parameter [t = -(n.p1) / (n.(p2 - p1))], tagged with the plane's flag;
    on exact arithmetic this point is on the plane. *)
Theorem fov_plane_clip (poly : vpMbtPolygon) (fovNormals : list vpColVector)
    (i : N) (k : nat) (normal : vpColVector)
    (t : roi) (j : nat) (t2 : roi) (a b : vpPoint) (ia ib : N) :
  fov_index i = Some k ->
  N.land (clippingFlag poly) i = i ->
  nth_error fovNormals k = Some normal ->
  nth_error t j = Some (a, ia) ->
  nth_error t (S j mod length t) = Some (b, ib) ->
  let out1 := below_right_angle normal a in
  let out2 := below_right_angle normal b in
  let tp := fplane_parameter (c0 normal) (c1 normal) (c2 normal)
                             (get_X a) (get_Y a) (get_Z a)
                             (get_X b) (get_Y b) (get_Z b) in
  let crossing :=
    point_at (falong tp (get_X a) (get_X b)) (falong tp (get_Y a) (get_Y b))
             (falong tp (get_Z a) (get_Z b)) in
  let closing := if nbpt poly =? 2 then [(pt_projection b, ib)] else [] in
  (out1 = true -> out2 = true ->
     clip_edge poly fovNormals i t j t2 = Normal (t2, false))
  /\ (out1 = false -> out2 = false ->
     clip_edge poly fovNormals i t j t2
     = Normal (t2 ++ (pt_projection a, ia) :: closing, nbpt poly =? 2))
  /\ (out1 = true -> out2 = false ->
     clip_edge poly fovNormals i t j t2
     = Normal (t2 ++ (pt_projection crossing, N.lor ia i) :: closing,
               nbpt poly =? 2))
  /\ (out1 = false -> out2 = true -> N.lor ib i <> ib ->
     clip_edge poly fovNormals i t j t2
     = Normal (t2 ++ [(pt_projection a, ia);
                      (pt_projection crossing, N.lor ib i)],
               nbpt poly =? 2))
  /\ (forall n0 n1 n2 x1 y1 z1 x2 y2 z2 : Q,
        (~ n0 * (x2 - x1) + n1 * (y2 - y1) + n2 * (z2 - z1) == 0)%Q ->
        let tq := Qplane_parameter n0 n1 n2 x1 y1 z1 x2 y2 z2 in
        (n0 * Qalong tq x1 x2 + n1 * Qalong tq y1 y2
         + n2 * Qalong tq z1 z2 == 0)%Q).
Proof.
  intros Hk Hflag Hn Ha Hb out1 out2 tp crossing closing.
  assert (Hc : fov_crossing normal a b = crossing) by reflexivity.
  assert (Hs : clip_switch poly fovNormals i (mkEdge a b ia ib)
               = Normal (if out1 && out2 then (true, mkEdge a b ia ib)
                         else if out1
                              then (false, mkEdge crossing b (N.lor ia i) ib)
                              else if out2
                                   then (false,
                                         mkEdge a crossing ia (N.lor ib i))
                                   else (false, mkEdge a b ia ib))).
  { rewrite clip_switch_fov with (k := k) by exact Hk.
    unfold fov_case. rewrite Hn.
    unfold getClippedPointsFovGeneric.
    apply N.eqb_eq in Hflag. rewrite Hflag.
    simpl p1Clipped. simpl p2Clipped. rewrite Hc.
    fold (below_right_angle normal a). fold (below_right_angle normal b).
    fold out1 out2.
    destruct out1, out2; reflexivity. }
  assert (He : clip_edge poly fovNormals i t j t2
               = (r <- clip_switch poly fovNormals i (mkEdge a b ia ib) ;;
                  if negb (fst r)
                  then
                    let u :=
                      t2 ++ [(pt_projection (p1Clipped (snd r)),
                              p1ClippedInfo (snd r))] in
                    let u :=
                      if negb (p2ClippedInfo (snd r) =? ib)%N
                      then u ++ [(pt_projection (p2Clipped (snd r)),
                                  p2ClippedInfo (snd r))]
                      else u in
                    if nbpt poly =? 2
                    then Normal (if (p2ClippedInfo (snd r) =? ib)%N
                                 then u ++ [(pt_projection (p2Clipped (snd r)),
                                             p2ClippedInfo (snd r))]
                                 else u, true)
                    else Normal (u, false)
                  else Normal (t2, false)))
    by (unfold clip_edge; rewrite Ha, Hb; reflexivity).
  rewrite He, Hs. clear He Hs. unfold closing.
  split; [|split; [|split; [|split]]].
  - intros H1 H2. rewrite H1, H2. reflexivity.
  - intros H1 H2. rewrite H1, H2. simpl. rewrite N.eqb_refl. simpl.
    destruct (nbpt poly =? 2); rewrite <- ?app_assoc; reflexivity.
  - intros H1 H2. rewrite H1, H2. simpl. rewrite N.eqb_refl. simpl.
    destruct (nbpt poly =? 2); rewrite <- ?app_assoc; reflexivity.
  - intros H1 H2 Htag. rewrite H1, H2. simpl.
    apply N.eqb_neq in Htag. rewrite Htag. simpl.
    destruct (nbpt poly =? 2); rewrite <- ?app_assoc; reflexivity.
  - intros n0 n1 n2 x1 y1 z1 x2 y2 z2. apply plane_parameter_exact.
Qed.

End FovPlane.

(** ** A segment across the near plane *)

Section NearSegment.
Context {V : ViSP}.

Lemma clip_against_near_only (poly : vpMbtPolygon)
    (fovNormals : list vpColVector) (t : roi) :
  clippingFlag poly = NEAR_CLIPPING ->
  plane_loop plane_budget poly fovNormals 1 t
  = edge_loop poly fovNormals NEAR_CLIPPING t (length t) 0 [].
Proof.
  intros Hf. rewrite plane_loop_planes by (rewrite Hf; reflexivity).
  rewrite Hf. simpl.
  destruct (edge_loop poly fovNormals NEAR_CLIPPING t (length t) 0 []);
    reflexivity.
Qed.

End NearSegment.

(** ** Order on binary64 values *)

Lemma SFcompare_antisym (x y : spec_float) :
  SFcompare y x = option_map CompOpp (SFcompare x y).
Proof.
  destruct x as [sx|sx| |sx mx ex], y as [sy|sy| |sy my ey]; simpl;
    try reflexivity;
    try (destruct sx; reflexivity); try (destruct sy; reflexivity);
    try (destruct sx, sy; reflexivity).
  destruct sx, sy; simpl; try reflexivity;
    rewrite (Z.compare_antisym ex ey);
    destruct (ex ?= ey)%Z; simpl; try reflexivity;
    pose proof (Pos.compare_cont_antisym mx my Eq) as H; simpl in H;
    change PosDef.Pos.compare_cont with Pos.compare_cont;
    rewrite <- H; now destruct (Pos.compare_cont Eq mx my).
Qed.

Lemma ltb_asym (a b : float) :
  (a <? b)%float = true -> (b <? a)%float = false.
Proof.
  rewrite !ltb_spec. unfold SFltb.
  rewrite (SFcompare_antisym (Prim2SF a) (Prim2SF b)).
  destruct (SFcompare (Prim2SF a) (Prim2SF b)) as [[]|]; simpl;
    congruence.
Qed.

(** ** Planes that keep every vertex *)

Lemma skipn_nth_error {A : Type} (l : list A) (j : nat) (x : A) :
  nth_error l j = Some x -> skipn j l = x :: skipn (S j) l.
Proof.
  revert j. induction l as [|h t IH]; intros [|j] H; simpl in *;
    try discriminate.
  - now injection H as ->.
  - now apply IH.
Qed.

Section Inside.
Context {V : ViSP}.
Variable poly : vpMbtPolygon.
Variable fovNormals : list vpColVector.

Lemma clip_switch_kept (i : N) (a b : vpPoint) (ia ib : N) :
  kept poly fovNormals i a -> kept poly fovNormals i b ->
  clip_switch poly fovNormals i (mkEdge a b ia ib)
  = Normal (false, mkEdge a b ia ib).
Proof.
  intros Ha Hb. unfold kept in Ha, Hb.
  repeat match type of Ha with
         | context [match ?x with _ => _ end] =>
             destruct x; try contradiction
         end;
    first
      [ unfold clip_switch, getClippedPointsDistance; simpl;
        rewrite Ha, Hb; reflexivity
      | destruct Ha as (n & Hn & Ha); destruct Hb as (n' & Hn' & Hb);
        rewrite Hn in Hn'; injection Hn' as <-;
        unfold clip_switch, fov_case; rewrite Hn;
        unfold getClippedPointsFovGeneric; simpl p1Clipped; simpl p2Clipped;
        fold (below_right_angle n a); fold (below_right_angle n b);
        rewrite Ha, Hb;
        match goal with
        | |- context [if ?g then _ else _] => destruct g
        end; reflexivity ].
Qed.

Lemma edge_loop_kept (i : N) (t : roi) :
  nbpt poly <> 2 ->
  Forall (fun x => kept poly fovNormals i (fst x)) t ->
  forall (k j : nat) (acc : roi),
    j + k = length t ->
    edge_loop poly fovNormals i t k j acc
    = Normal (acc ++ map reprojected (skipn j t)).
Proof.
  intros Hn Hk. rewrite Forall_forall in Hk.
  induction k as [|k IH]; intros j acc Hjk.
  - replace j with (length t) by lia.
    rewrite skipn_all. simpl. now rewrite app_nil_r.
  - assert (Hj : j < length t) by lia.
    destruct (nth_error t j) as [[a ia]|] eqn:Ea;
      [|apply nth_error_None in Ea; lia].
    assert (Hj' : S j mod length t < length t)
      by (apply Nat.mod_upper_bound; lia).
    destruct (nth_error t (S j mod length t)) as [[b ib]|] eqn:Eb;
      [|apply nth_error_None in Eb; lia].
    assert (Ka := Hk _ (nth_error_In _ _ Ea)).
    assert (Kb := Hk _ (nth_error_In _ _ Eb)).
    simpl in Ka, Kb.
    simpl edge_loop. unfold clip_edge. rewrite Ea, Eb.
    rewrite (@clip_switch_kept i a b ia ib Ka Kb). simpl.
    rewrite N.eqb_refl. simpl.
    apply Nat.eqb_neq in Hn. rewrite Hn. simpl.
    rewrite IH by lia.
    rewrite (skipn_nth_error _ _ Ea). simpl.
    rewrite <- app_assoc. reflexivity.
Qed.

Lemma clip_against_kept (ps : list N) (t : roi) :
  nbpt poly <> 2 ->
  (forall i, In i ps -> Forall (fun x => kept poly fovNormals i (fst x)) t) ->
  Forall (fun x => pt_projection (fst x) = fst x) t ->
  clip_against poly fovNormals ps t = Normal t.
Proof.
  intros Hn Hk Hp. induction ps as [|i ps IH]; [reflexivity|].
  simpl. rewrite (@edge_loop_kept i t Hn (Hk i (or_introl eq_refl))) by lia.
  simpl.
  assert (Hid : map reprojected t = t).
  { clear -Hp. induction Hp as [|[q f] l Hq _ IHl]; [reflexivity|].
    simpl in *. unfold reprojected at 1. simpl. now rewrite Hq, IHl. }
  rewrite Hid. apply IH. intros j Hj. apply Hk. now right.
Qed.

End Inside.

Section InsideTriangle.
Context {V : ViSP}.

(** C7 (as amended): a triangle whose corners, transformed and
    projected, are all strictly between the near and far distances and
    strictly on the kept side of the four field-of-view planes (at more
    than a right angle to each normal) is its own clipped boundary under
    the six planes: the three corners in their order, none tagged. *)
Theorem clip_inside_triangle (cam : vpCameraParameters) (poly : vpMbtPolygon)
    (a b c : vpPoint) (nl nr nu nd : vpColVector) :
  p poly = [a; b; c] ->
  clippingFlag poly = 63%N ->
  isFovComputed cam = true ->
  getFovNormals cam = [nl; nr; nu; nd] ->
  Forall (fun q => pt_projection q = q) [a; b; c] ->
  Forall (strictly_kept cam poly) [a; b; c] ->
  computeRoiClipped cam poly
  = Normal (with_roiPointsClip
              [(a, NO_CLIPPING); (b, NO_CLIPPING); (c, NO_CLIPPING)] poly).
Proof.
  intros Hp Hf Hfov Hnorm Hproj Hin.
  rewrite computeRoiClipped_clip_against by (rewrite Hf; reflexivity).
  assert (Hw : working_list poly
               = [(a, NO_CLIPPING); (b, NO_CLIPPING); (c, NO_CLIPPING)])
    by (unfold working_list; now rewrite Hp).
  assert (Hu : normals_in_use cam poly = [nl; nr; nu; nd])
    by (unfold normals_in_use; now rewrite Hfov, Hf, Hnorm).
  rewrite clip_against_kept; [now rewrite Hw| | |].
  - unfold nbpt. rewrite Hp. discriminate.
  - intros i Hi. rewrite Hw, Hu.
    assert (K : forall q, strictly_kept cam poly q ->
                          kept poly [nl; nr; nu; nd] i q).
    { intros q (Hnear & Hfar & Hang). rewrite Hnorm in Hang.
      apply ltb_asym in Hnear. apply ltb_asym in Hfar.
      rewrite Forall_forall in Hang.
      assert (A : forall n, In n [nl; nr; nu; nd] ->
                            below_right_angle n q = false)
        by (intros n Hn'; apply ltb_asym; now apply Hang).
      rewrite Hf in Hi. simpl in Hi.
      destruct Hi as [<-|[<-|[<-|[<-|[<-|[<-|[]]]]]]]; simpl;
        try assumption; eexists; (split; [reflexivity|]);
        apply A; simpl; tauto. }
    inversion Hin as [|? ? Ia Hin1]; subst.
    inversion Hin1 as [|? ? Ib Hin2]; subst.
    inversion Hin2 as [|? ? Ic _]; subst.
    repeat constructor; simpl; now apply K.
  - rewrite Hw.
    inversion Hproj as [|? ? Pa Hp1]; subst.
    inversion Hp1 as [|? ? Pb Hp2]; subst.
    inversion Hp2 as [|? ? Pc _]; subst.
    repeat constructor; assumption.
Qed.

End InsideTriangle.

(** ** The stateless entry point *)

Lemma store_app {A : Type} (pre : list A) (v h : A) (t : list A) :
  store (length pre) v (pre ++ h :: t) = Some (pre ++ v :: t).
Proof.
  induction pre as [|x pre IH]; simpl; [reflexivity|].
  now rewrite IH.
Qed.

Section Stateless.
Context {V : ViSP}.

Lemma add_points_fill (ptIn : list vpPoint) :
  forall (pre rest : list vpPoint) (poly : vpMbtPolygon),
    p poly = pre ++ rest -> length rest = length ptIn ->
    add_points (length pre) ptIn poly = Normal (with_p (pre ++ ptIn) poly).
Proof.
  induction ptIn as [|q l IH]; intros pre rest poly Hp Hl.
  - destruct rest; [|discriminate]. simpl.
    rewrite app_nil_r in *. rewrite <- Hp. now destruct poly.
  - destruct rest as [|h rest]; [discriminate|].
    simpl. unfold addPoint. rewrite Hp, store_app. simpl.
    specialize (IH (pre ++ [q]) rest
                   (with_p (pre ++ q :: rest) poly)).
    rewrite length_app, Nat.add_1_r in IH.
    rewrite IH.
    + rewrite <- app_assoc. reflexivity.
    + simpl. now rewrite <- app_assoc.
    + simpl in Hl. lia.
Qed.

(** C8 (as amended): [getClippedPolygon] returns the points, flags
    dropped and order kept, of the boundary computed by [changeFrame] then
    [computeRoiClipped] on a polygon with the given points and mask, whose
    near distance is [znear] when the mask has the NEAR bit and 0.001
    otherwise, and whose far distance is [zfar] when the mask has the FAR
    bit and 100 otherwise. *)
Theorem getClippedPolygon_transient (ptIn : list vpPoint)
    (cMo : vpHomogeneousMatrix) (clippingFlags : N)
    (cam : vpCameraParameters) (znear zfar : float) :
  getClippedPolygon ptIn cMo clippingFlags cam znear zfar
  = clipped_polygon_spec ptIn cMo clippingFlags cam
      (near_in_use clippingFlags znear) (far_in_use clippingFlags zfar).
Proof.
  unfold getClippedPolygon, clipped_polygon_spec, near_in_use, far_in_use.
  rewrite (add_points_fill ptIn [] (repeat pt_default (length ptIn)));
    [| destruct (_ =? _)%N, (_ =? _)%N; reflexivity
     | apply repeat_length ].
  simpl bind at 1.
  destruct (N.land clippingFlags NEAR_CLIPPING =? NEAR_CLIPPING)%N,
           (N.land clippingFlags FAR_CLIPPING =? FAR_CLIPPING)%N;
    reflexivity.
Qed.

End Stateless.

(** ** The bounding box *)

Lemma minmax_scan_snoc (l : list vpImagePoint) (ip : vpImagePoint) :
  minmax_scan (l ++ [ip]) = minmax_step (minmax_scan l) ip.
Proof. unfold minmax_scan. now rewrite fold_left_app. Qed.

Lemma i_min_border (post : list vpImagePoint) :
  forall s : minmax,
    i_min_d s = 1%float ->
    Forall (fun q => (get_i q <? 0)%float = true
                     \/ (get_i q <? 1)%float = false) post ->
    i_min_d (fold_left minmax_step post s) = 1%float.
Proof.
  induction post as [|q post IH]; intros s Hs Hq; [exact Hs|].
  inversion Hq as [|? ? Hq1 Hq2]; subst. simpl. apply IH; [|assumption].
  unfold minmax_step. simpl. rewrite Hs.
  destruct (get_i q <? 0)%float eqn:E; [reflexivity|].
  destruct Hq1 as [Hq1|Hq1]; [discriminate|]. now rewrite Hq1.
Qed.

Lemma j_min_border (post : list vpImagePoint) :
  forall s : minmax,
    j_min_d s = 1%float ->
    Forall (fun q => (get_j q <? 0)%float = true
                     \/ (get_j q <? 1)%float = false) post ->
    j_min_d (fold_left minmax_step post s) = 1%float.
Proof.
  induction post as [|q post IH]; intros s Hs Hq; [exact Hs|].
  inversion Hq as [|? ? Hq1 Hq2]; subst. simpl. apply IH; [|assumption].
  unfold minmax_step. simpl. rewrite Hs.
  destruct (get_j q <? 0)%float eqn:E; [reflexivity|].
  destruct Hq1 as [Hq1|Hq1]; [discriminate|]. now rewrite Hq1.
Qed.

(** C9 (as amended): a negative coordinate on an axis makes 1 the
    minimum returned for that axis when no later point has a coordinate in
    [0, 1) on it; and the maximum of an axis, before its cast to [int], is
    0 or a strictly positive coordinate of one of the points. *)
Theorem getMinMaxRoi_border (iroi : list vpImagePoint) :
  let s := minmax_scan iroi in
  (forall pre ip post,
      iroi = pre ++ ip :: post ->
      (get_i ip <? 0)%float = true ->
      Forall (fun q => (get_i q <? 0)%float = true
                       \/ (get_i q <? 1)%float = false) post ->
      getMinMaxRoi iroi
      = (i_max <- double_to_int (i_max_d s) ;;
         j_min <- double_to_int (j_min_d s) ;;
         j_max <- double_to_int (j_max_d s) ;;
         Normal (1%Z, i_max, j_min, j_max)))
  /\ (forall pre ip post,
      iroi = pre ++ ip :: post ->
      (get_j ip <? 0)%float = true ->
      Forall (fun q => (get_j q <? 0)%float = true
                       \/ (get_j q <? 1)%float = false) post ->
      getMinMaxRoi iroi
      = (i_min <- double_to_int (i_min_d s) ;;
         i_max <- double_to_int (i_max_d s) ;;
         j_max <- double_to_int (j_max_d s) ;;
         Normal (i_min, i_max, 1%Z, j_max)))
  /\ (i_max_d s = 0%float
      \/ exists q, In q iroi /\ (0 <? get_i q)%float = true
                   /\ i_max_d s = get_i q)
  /\ (j_max_d s = 0%float
      \/ exists q, In q iroi /\ (0 <? get_j q)%float = true
                   /\ j_max_d s = get_j q).
Proof.
  intros s. subst s. repeat split.
  - intros pre ip post -> Hneg Hpost.
    assert (H : i_min_d (minmax_scan (pre ++ ip :: post)) = 1%float).
    { unfold minmax_scan. rewrite fold_left_app. simpl.
      apply i_min_border; [|assumption].
      unfold minmax_step. simpl. now rewrite Hneg. }
    unfold getMinMaxRoi. rewrite H. reflexivity.
  - intros pre ip post -> Hneg Hpost.
    assert (H : j_min_d (minmax_scan (pre ++ ip :: post)) = 1%float).
    { unfold minmax_scan. rewrite fold_left_app. simpl.
      apply j_min_border; [|assumption].
      unfold minmax_step. simpl. now rewrite Hneg. }
    unfold getMinMaxRoi. rewrite H.
    destruct (double_to_int (i_min_d _)); try reflexivity;
      destruct (double_to_int (i_max_d _)); reflexivity.
  - induction iroi as [|x l IH] using rev_ind; [now left|].
    rewrite minmax_scan_snoc. unfold minmax_step. simpl.
    destruct ((0 <? get_i x)%float && (i_max_d (minmax_scan l) <? get_i x)%float)
      eqn:E.
    + right. exists x. apply andb_true_iff in E as [E _].
      rewrite in_app_iff. simpl. auto.
    + destruct IH as [IH|(q & Hq & Hpos & IH)]; [now left|].
      right. exists q. rewrite in_app_iff. auto.
  - induction iroi as [|x l IH] using rev_ind; [now left|].
    rewrite minmax_scan_snoc. unfold minmax_step. simpl.
    destruct ((0 <? get_j x)%float && (j_max_d (minmax_scan l) <? get_j x)%float)
      eqn:E.
    + right. exists x. apply andb_true_iff in E as [E _].
      rewrite in_app_iff. simpl. auto.
    + destruct IH as [IH|(q & Hq & Hpos & IH)]; [now left|].
      right. exists q. rewrite in_app_iff. auto.
Qed.

(** * The model on concrete scenes *)

(** C1 (as stated) fails: with the normals pointing into the frustum,
    the three corners of the triangle are all at less than a right angle
    to the LEFT normal; the edge between the first two is reported as a
    problem instead of being passed on, and the clipped boundary is
    empty. *)
Lemma fov_below_right_angle_dropped :
  let V := Ref.visp in
  let poly := Scene.triangle LEFT_CLIPPING in
  let nl := ColVector 0.8 0 0.6 in
  let a := Ref.cpt 0 0 2 in
  let b := Ref.cpt 1 0 2 in
  Forall (fun q => below_right_angle nl q = true) (p poly)
  /\ clip_switch poly Scene.inward LEFT_CLIPPING
                 (mkEdge a b NO_CLIPPING NO_CLIPPING)
     = Normal (true, mkEdge a b NO_CLIPPING NO_CLIPPING)
  /\ computeRoiClipped Scene.cam_inward poly
     = Normal (with_roiPointsClip [] poly).
Proof.
  cbv zeta. split; [|split].
  - repeat constructor.
  - vm_compute. reflexivity.
  - vm_compute. reflexivity.
Qed.

Lemma fov_plane_clip_witness :
  let V := Ref.visp in
  let a := Ref.cpt 0 0 2 in
  let b := Ref.cpt (-4) 0 2 in
  let poly := mkPolygon (-1) 0 false false [a; b; Ref.cpt 0 1 2] []
                        LEFT_CLIPPING 0.001 100 in
  let nl := ColVector (-0.8) 0 (-0.6) in
  let tp := fplane_parameter (-0.8) 0 (-0.6) 0 0 2 (-4) 0 2 in
  fov_index LEFT_CLIPPING = Some 0
  /\ N.land (clippingFlag poly) LEFT_CLIPPING = LEFT_CLIPPING
  /\ nth_error Scene.outward 0 = Some nl
  /\ nth_error (working_list poly) 0 = Some (a, NO_CLIPPING)
  /\ nth_error (working_list poly) (1 mod length (working_list poly))
     = Some (b, NO_CLIPPING)
  /\ below_right_angle nl a = false
  /\ below_right_angle nl b = true
  /\ clip_edge poly Scene.outward LEFT_CLIPPING (working_list poly) 0 []
     = Normal ([(pt_projection a, NO_CLIPPING);
                (pt_projection
                   (point_at (falong tp 0 (-4)) (falong tp 0 0)
                             (falong tp 2 2)), LEFT_CLIPPING)], false).
Proof.
  cbv zeta. do 7 (split; [reflexivity|]).
  apply (@fov_plane_clip Ref.visp
           (mkPolygon (-1) 0 false false
              [Ref.cpt 0 0 2; Ref.cpt (-4) 0 2; Ref.cpt 0 1 2] []
              LEFT_CLIPPING 0.001 100)
           Scene.outward LEFT_CLIPPING 0 (ColVector (-0.8) 0 (-0.6))
           (working_list
              (mkPolygon (-1) 0 false false
                 [Ref.cpt 0 0 2; Ref.cpt (-4) 0 2; Ref.cpt 0 1 2] []
                 LEFT_CLIPPING 0.001 100)) 0 []
           (Ref.cpt 0 0 2) (Ref.cpt (-4) 0 2) NO_CLIPPING NO_CLIPPING
           eq_refl eq_refl eq_refl eq_refl eq_refl);
    [reflexivity | reflexivity | discriminate].
Defined.

Lemma isVisible_line_witness :
  nbpt Scene.segment <= 2
  /\ fst (isVisible (V := Ref.visp) Ref.identity 1 false Scene.segment) = true
  /\ p (snd (isVisible (V := Ref.visp) Ref.identity 1 false Scene.segment))
     = p Scene.segment.
Proof.
  assert (H : nbpt Scene.segment <= 2) by (apply Nat.le_refl).
  split; [exact H|].
  destruct (@isVisible_line Ref.visp Ref.identity 1%float false
              Scene.segment H) as (H1 & _ & _ & H4).
  split; assumption.
Defined.



Lemma computeRoiClipped_plane_order_witness :
  (0 < clippingFlag (Scene.triangle LEFT_CLIPPING) < 64)%N
  /\ computeRoiClipped (V := Ref.visp) Scene.cam (Scene.triangle LEFT_CLIPPING)
     = (t <- clip_against (V := Ref.visp) (Scene.triangle LEFT_CLIPPING)
               Scene.outward [NEAR_CLIPPING; LEFT_CLIPPING]
               (working_list (Scene.triangle LEFT_CLIPPING)) ;;
        Normal (with_roiPointsClip t (Scene.triangle LEFT_CLIPPING))).
Proof.
  assert (H : (0 < clippingFlag (Scene.triangle LEFT_CLIPPING) < 64)%N)
    by (split; reflexivity).
  split; [exact H|].
  exact (proj2 (proj2 (@computeRoiClipped_plane_order Ref.visp Scene.cam
                         (Scene.triangle LEFT_CLIPPING) H))).
Defined.

Lemma clip_inside_triangle_witness :
  let V := Ref.visp in
  let poly := Scene.triangle 63 in
  Forall (fun q => pt_projection q = q) Scene.corners
  /\ Forall (strictly_kept Scene.cam poly) Scene.corners
  /\ computeRoiClipped Scene.cam poly
     = Normal (with_roiPointsClip (working_list poly) poly).
Proof.
  cbv zeta.
  assert (Hp : Forall (fun q => pt_projection (ViSP := Ref.visp) q = q)
                      Scene.corners)
    by (repeat constructor).
  assert (Hi : Forall (strictly_kept (V := Ref.visp) Scene.cam
                         (Scene.triangle 63)) Scene.corners)
    by (repeat constructor).
  split; [exact Hp|]. split; [exact Hi|].
  exact (@clip_inside_triangle Ref.visp Scene.cam (Scene.triangle 63)
           _ _ _ _ _ _ _ eq_refl eq_refl eq_refl eq_refl Hp Hi).
Defined.

(** C7 (as stated) fails: with inside a field-of-view half-space read as
    the specification defines it (angle below a right angle), the three
    corners of the triangle are strictly inside the four half-spaces and
    strictly between the near and far distances, and the boundary under
    the six planes is empty. *)
Lemma inside_spec_triangle_clipped_away :
  let V := Ref.visp in
  let poly := Scene.triangle 63 in
  p poly = Scene.corners
  /\ Forall (fun q => pt_projection q = q) (p poly)
  /\ Forall (strictly_inside_spec Scene.cam_inward poly) (p poly)
  /\ isFovComputed Scene.cam_inward = true
  /\ computeRoiClipped Scene.cam_inward poly
     = Normal (with_roiPointsClip [] poly).
Proof.
  cbv zeta. split; [reflexivity|]. split; [repeat constructor|].
  split; [repeat constructor|]. split; [reflexivity|].
  vm_compute. reflexivity.
Qed.

(** C8 (as stated) fails: the mask LEFT alone brings in the near plane,
    and [getClippedPolygon] clips against the default near distance 0.001,
    not against the caller's 0.5; a triangle at depth 0.1 survives. *)
Lemma getClippedPolygon_ignores_znear :
  let V := Ref.visp in
  clipped_polygon_spec Scene.close_corners Ref.identity LEFT_CLIPPING
                       Scene.cam 0.5 100
  = Normal []
  /\ (exists q1 q2 q3,
         getClippedPolygon Scene.close_corners Ref.identity LEFT_CLIPPING
                           Scene.cam 0.5 100
         = Normal [q1; q2; q3])
  /\ getClippedPolygon Scene.close_corners Ref.identity LEFT_CLIPPING
                       Scene.cam 0.5 100
     <> clipped_polygon_spec Scene.close_corners Ref.identity LEFT_CLIPPING
                             Scene.cam 0.5 100.
Proof.
  cbv zeta. split; [|split].
  - vm_compute. reflexivity.
  - do 3 eexists. vm_compute. reflexivity.
  - vm_compute. discriminate.
Qed.

(** C9 (as stated) fails: the first point has a negative coordinate on
    the [i] axis, and the minimum returned for that axis is 0, the
    coordinate of the second point. *)
Lemma getMinMaxRoi_negative_then_zero :
  let iroi := [ImagePoint (-5) 10; ImagePoint 0 10] in
  (exists ip, In ip iroi /\ (get_i ip <? 0)%float = true)
  /\ getMinMaxRoi iroi = Normal (0, 0, 10, 10)%Z.
Proof.
  cbv zeta. split.
  - exists (ImagePoint (-5) 10). split; [now left|reflexivity].
  - vm_compute. reflexivity.
Qed.

Lemma getMinMaxRoi_border_witness :
  let iroi := [ImagePoint (-5) 10; ImagePoint 3 10] in
  iroi = [] ++ ImagePoint (-5) 10 :: [ImagePoint 3 10]
  /\ (get_i (ImagePoint (-5) 10) <? 0)%float = true
  /\ getMinMaxRoi iroi = Normal (1, 3, 10, 10)%Z.
Proof.
  cbv zeta. split; [reflexivity|]. split; [reflexivity|].
  rewrite (proj1 (getMinMaxRoi_border
                    [ImagePoint (-5) 10; ImagePoint 3 10])
                 [] (ImagePoint (-5) 10) [ImagePoint 3 10]
                 eq_refl eq_refl).
  - reflexivity.
  - constructor; [right; reflexivity | constructor].
Defined.

(** * Further properties of the clipping *)

Section Boundary.
Context {V : ViSP}.

Lemma bind_Normal {A B : Type} (a : A) (k : A -> outcome B) :
  bind (Normal a) k = k a.
Proof. reflexivity. Qed.

Lemma plane_loop_nil_step (poly : vpMbtPolygon) (fovNormals : list vpColVector)
    (fuel : nat) (i : N) :
  (i <? 64)%N = true ->
  plane_loop (S fuel) poly fovNormals i []
  = plane_loop fuel poly fovNormals ((i * 2) mod 2 ^ 32)%N [].
Proof.
  intros Hi. rewrite plane_loop_step by exact Hi.
  destruct (plane_active (clippingFlag poly) i); reflexivity.
Qed.

(** Once the working list is empty it stays empty, and no normal is
    read. *)
Lemma plane_loop_nil (poly : vpMbtPolygon) (fovNormals : list vpColVector)
    (fuel : nat) (i : N) :
  In i planes -> 6 <= fuel ->
  plane_loop fuel poly fovNormals i [] = Normal [].
Proof.
  intros Hi Hfuel.
  do 6 (destruct fuel as [|fuel]; [lia|]). clear Hfuel.
  unfold planes in Hi. simpl in Hi.
  destruct Hi as [<-|[<-|[<-|[<-|[<-|[<-|[]]]]]]];
    repeat (rewrite plane_loop_nil_step by reflexivity);
    apply plane_loop_exit; reflexivity.
Qed.

(** [computeRoiClipped] on a polygon without corners: the boundary is
    empty whatever the mask and the camera. *)
Theorem computeRoiClipped_no_corner (cam : vpCameraParameters)
    (poly : vpMbtPolygon) :
  p poly = [] ->
  computeRoiClipped cam poly = Normal (with_roiPointsClip [] poly).
Proof.
  intros Hp. unfold computeRoiClipped, nbpt. rewrite Hp. simpl map.
  destruct (negb (clippingFlag poly =? NO_CLIPPING)%N); [|reflexivity].
  unfold plane_budget. rewrite plane_loop_nil; [reflexivity| |lia].
  unfold planes. simpl. auto.
Qed.

(** [getClippedPolygon] on no point returns no point. *)
Theorem getClippedPolygon_no_point (cMo : vpHomogeneousMatrix)
    (clippingFlags : N) (cam : vpCameraParameters) (znear zfar : float) :
  getClippedPolygon [] cMo clippingFlags cam znear zfar = Normal [].
Proof.
  unfold getClippedPolygon. simpl add_points. simpl bind at 1.
  match goal with
  | |- context [computeRoiClipped cam ?q] =>
      assert (H : computeRoiClipped cam q
                  = Normal (with_roiPointsClip [] q))
  end.
  { unfold computeRoiClipped, nbpt, changeFrame.
    destruct (N.land clippingFlags NEAR_CLIPPING =? NEAR_CLIPPING)%N,
             (N.land clippingFlags FAR_CLIPPING =? FAR_CLIPPING)%N;
      simpl p; simpl map;
      (match goal with
       | |- context [negb ?c] => destruct (negb c)
       end; [|reflexivity]);
      unfold plane_budget;
      (rewrite plane_loop_nil; [reflexivity| |lia]);
      unfold planes; simpl; auto. }
  rewrite H. reflexivity.
Qed.

(** With an empty mask the boundary is the list of corners, none tagged,
    each as it is stored (no projection is recomputed). *)
Theorem computeRoiClipped_no_clipping (cam : vpCameraParameters)
    (poly : vpMbtPolygon) :
  clippingFlag poly = NO_CLIPPING ->
  computeRoiClipped cam poly
  = Normal (with_roiPointsClip (map (fun q => (q, NO_CLIPPING)) (p poly)) poly)
  /\ getRoiClipped [] (with_roiPointsClip
                         (map (fun q => (q, NO_CLIPPING)) (p poly)) poly)
     = p poly.
Proof.
  intros Hf. split.
  - unfold computeRoiClipped. rewrite working_list_initial, Hf.
    reflexivity.
  - unfold getRoiClipped. simpl. rewrite map_map. simpl.
    apply map_id.
Qed.

Lemma edge_loop_all_near (poly : vpMbtPolygon) (fovNormals : list vpColVector)
    (t : roi) :
  Forall (fun x => (get_Z (fst x) <? distNearClip poly)%float = true) t ->
  forall (k j : nat) (acc : roi),
    j + k = length t ->
    edge_loop poly fovNormals NEAR_CLIPPING t k j acc = Normal acc.
Proof.
  intros Hall. rewrite Forall_forall in Hall.
  induction k as [|k IH]; intros j acc Hjk; [reflexivity|].
  assert (Hj : j < length t) by lia.
  destruct (nth_error t j) as [[a ia]|] eqn:Ea;
    [|apply nth_error_None in Ea; lia].
  assert (Hj' : S j mod length t < length t)
    by (apply Nat.mod_upper_bound; lia).
  destruct (nth_error t (S j mod length t)) as [[b ib]|] eqn:Eb;
    [|apply nth_error_None in Eb; lia].
  assert (Ka := Hall _ (nth_error_In _ _ Ea)).
  assert (Kb := Hall _ (nth_error_In _ _ Eb)).
  simpl in Ka, Kb. simpl edge_loop.
  rewrite (@clip_edge_problem V poly fovNormals NEAR_CLIPPING t j acc
             a b ia ib (mkEdge a b ia ib) Ea Eb).
  - simpl. apply IH. lia.
  - unfold NEAR_CLIPPING, clip_switch, getClippedPointsDistance. simpl.
    rewrite Ka, Kb. reflexivity.
Qed.

(** Full rejection: when the near plane takes part and every corner is
    nearer than the near distance, the boundary is empty; the camera's
    normals are not needed. *)
Theorem computeRoiClipped_all_near (cam : vpCameraParameters)
    (poly : vpMbtPolygon) :
  N.land (clippingFlag poly) NEAR_CLIPPING = NEAR_CLIPPING
  \/ (FAR_CLIPPING < clippingFlag poly)%N ->
  Forall (fun q => (get_Z q <? distNearClip poly)%float = true) (p poly) ->
  computeRoiClipped cam poly = Normal (with_roiPointsClip [] poly).
Proof.
  intros Hnear Hall.
  assert (Hact : plane_active (clippingFlag poly) 1 = true).
  { unfold plane_active. apply orb_true_iff.
    destruct Hnear as [H|H]; [left; now apply N.eqb_eq|right].
    apply andb_true_iff. split; [now apply N.ltb_lt|reflexivity]. }
  assert (Hne : (clippingFlag poly =? NO_CLIPPING)%N = false).
  { apply N.eqb_neq. intros E. rewrite E in Hact. discriminate. }
  unfold computeRoiClipped. rewrite working_list_initial, Hne.
  simpl negb. cbv iota. unfold plane_budget.
  rewrite plane_loop_step by reflexivity. rewrite Hact.
  rewrite (@edge_loop_all_near poly _ (working_list poly)).
  - rewrite bind_Normal.
    change ((1 * 2) mod 2 ^ 32)%N with 2%N.
    rewrite plane_loop_nil; [reflexivity| |lia].
    unfold planes. simpl. auto.
  - unfold working_list. apply Forall_forall. intros x Hx.
    apply in_map_iff in Hx. destruct Hx as (q & <- & Hq).
    rewrite Forall_forall in Hall. now apply Hall.
  - lia.
Qed.

End Boundary.

(** ** What the boundary depends on *)

Section SameClipping.
Context {V : ViSP}.
Variables a b : vpMbtPolygon.
Hypothesis Hsame : same_clipping a b.

Lemma clip_switch_same (fovNormals : list vpColVector) (i : N) (e : edge) :
  clip_switch a fovNormals i e = clip_switch b fovNormals i e.
Proof.
  destruct Hsame as (_ & Hf & Hn & Hd).
  unfold clip_switch, fov_case, getClippedPointsFovGeneric.
  rewrite Hf, Hn, Hd. reflexivity.
Qed.

Lemma clip_edge_same (fovNormals : list vpColVector) (i : N) (t : roi)
    (j : nat) (t2 : roi) :
  clip_edge a fovNormals i t j t2 = clip_edge b fovNormals i t j t2.
Proof.
  unfold clip_edge, nbpt.
  destruct Hsame as (Hp & _). rewrite Hp.
  destruct (nth_error t j) as [[x ix]|]; [|reflexivity].
  destruct (nth_error t (S j mod length t)) as [[y iy]|]; [|reflexivity].
  rewrite clip_switch_same. reflexivity.
Qed.

Lemma edge_loop_same (fovNormals : list vpColVector) (i : N) (t : roi) :
  forall (k j : nat) (t2 : roi),
    edge_loop a fovNormals i t k j t2 = edge_loop b fovNormals i t k j t2.
Proof.
  induction k as [|k IH]; intros j t2; [reflexivity|].
  simpl. rewrite clip_edge_same. apply bind_ext. intros r.
  destruct (snd r); [reflexivity|apply IH].
Qed.

Lemma plane_loop_same (fovNormals : list vpColVector) :
  forall (fuel : nat) (i : N) (t : roi),
    plane_loop fuel a fovNormals i t = plane_loop fuel b fovNormals i t.
Proof.
  induction fuel as [|fuel IH]; intros i t; simpl; [reflexivity|].
  destruct (i <? 64)%N; [|reflexivity].
  destruct Hsame as (_ & Hf & _). rewrite Hf, edge_loop_same.
  apply bind_ext. intros t'. apply IH.
Qed.

Lemma computeRoiClipped_same (cam : vpCameraParameters) :
  computeRoiClipped cam b
  = (a' <- computeRoiClipped cam a ;;
     Normal (with_roiPointsClip (roiPointsClip a') b)).
Proof.
  unfold computeRoiClipped, nbpt.
  destruct Hsame as (Hp & Hf & _). rewrite <- Hp, <- Hf.
  rewrite plane_loop_same.
  match goal with
  | |- bind ?m _ = _ => destruct m; reflexivity
  end.
Qed.

End SameClipping.

Section Idempotence.
Context {V : ViSP}.

(** The result of [computeRoiClipped] is the polygon it was given, with a
    new boundary. *)
Lemma computeRoiClipped_frame (cam : vpCameraParameters)
    (poly poly' : vpMbtPolygon) :
  computeRoiClipped cam poly = Normal poly' ->
  poly' = with_roiPointsClip (roiPointsClip poly') poly.
Proof.
  unfold computeRoiClipped.
  match goal with
  | |- bind ?m _ = _ -> _ => destruct m; simpl; try discriminate
  end.
  intros H. injection H as <-. reflexivity.
Qed.

(** The boundary is computed from the corners, the mask and the two
    distances alone: a second call, on the polygon the first one
    returned, returns the same polygon. *)
Theorem computeRoiClipped_idempotent (cam : vpCameraParameters)
    (poly poly' : vpMbtPolygon) :
  computeRoiClipped cam poly = Normal poly' ->
  computeRoiClipped cam poly' = Normal poly'.
Proof.
  intros H. pose proof (computeRoiClipped_frame _ _ H) as Hf.
  assert (Hs : same_clipping poly poly').
  { rewrite Hf. repeat split. }
  rewrite (computeRoiClipped_same Hs cam), H. simpl.
  rewrite Hf at 2 3. reflexivity.
Qed.

End Idempotence.

(** ** When the clipping is defined *)

Lemma fov_planes_idle (clipMask i : N) :
  (clipMask <= 3)%N -> In i planes -> (2 < i)%N ->
  plane_active clipMask i = false.
Proof.
  intros Hm Hi Hlt.
  assert (Hc : (clipMask = 0 \/ clipMask = 1 \/ clipMask = 2
                \/ clipMask = 3)%N) by lia.
  unfold planes in Hi. simpl in Hi.
  destruct Hi as [<-|[<-|[<-|[<-|[<-|[<-|[]]]]]]];
    try (exfalso; revert Hlt; unfold NEAR_CLIPPING, FAR_CLIPPING; lia);
    destruct Hc as [->|[->|[->| ->]]]; reflexivity.
Qed.

Section Defined.
Context {V : ViSP}.
Variable poly : vpMbtPolygon.
Variable fovNormals : list vpColVector.

Lemma clip_switch_distance_defined (i : N) (e : edge) :
  (i <= 2)%N -> exists r, clip_switch poly fovNormals i e = Normal r.
Proof.
  intros Hi.
  assert (Hc : (i = 0 \/ i = 1 \/ i = 2)%N) by lia.
  destruct Hc as [->|[->| ->]]; simpl; eauto.
Qed.

Lemma clip_switch_fov_defined (i : N) (e : edge) :
  4 <= length fovNormals ->
  exists r, clip_switch poly fovNormals i e = Normal r.
Proof.
  intros Hl.
  destruct fovNormals as [|n0 [|n1 [|n2 [|n3 rest]]]]; simpl in Hl;
    try lia.
  destruct (fov_index i) as [k|] eqn:Ek.
  - rewrite clip_switch_fov with (k := k) by exact Ek.
    unfold fov_case.
    destruct (fov_index_cases _ Ek) as [[_ ->]|[[_ ->]|[[_ ->]|[_ ->]]]];
      simpl; eauto.
  - unfold clip_switch.
    unfold fov_index in Ek.
    repeat match type of Ek with
           | context [match ?x with _ => _ end] =>
               destruct x; try discriminate Ek
           end; eauto.
Qed.

Lemma edge_loop_defined (i : N) (t : roi) :
  (forall e, exists r, clip_switch poly fovNormals i e = Normal r) ->
  forall (k j : nat) (acc : roi),
    j + k = length t ->
    exists out, edge_loop poly fovNormals i t k j acc = Normal out.
Proof.
  intros Hs. induction k as [|k IH]; intros j acc Hjk; simpl; [eauto|].
  assert (Hj : j < length t) by lia.
  destruct (nth_error t j) as [[x ix]|] eqn:Ea;
    [|apply nth_error_None in Ea; lia].
  assert (Hj' : S j mod length t < length t)
    by (apply Nat.mod_upper_bound; lia).
  destruct (nth_error t (S j mod length t)) as [[y iy]|] eqn:Eb;
    [|apply nth_error_None in Eb; lia].
  unfold clip_edge. rewrite Ea, Eb.
  destruct (Hs (mkEdge x y ix iy)) as [[problem e] ->]. simpl.
  destruct problem; simpl.
  - apply IH. lia.
  - destruct (nbpt poly =? 2); simpl; [eauto|]. apply IH. lia.
Qed.

Lemma stage_defined (i : N) (t : roi) :
  In i planes ->
  (clippingFlag poly <= 3)%N \/ 4 <= length fovNormals ->
  exists t',
    (if plane_active (clippingFlag poly) i
     then edge_loop poly fovNormals i t (length t) 0 []
     else Normal t) = Normal t'.
Proof.
  intros Hi Hok.
  destruct (plane_active (clippingFlag poly) i) eqn:Ea; [|eauto].
  apply edge_loop_defined; [|reflexivity].
  intros e. destruct Hok as [Hm|Hl].
  - apply clip_switch_distance_defined.
    destruct (N.le_gt_cases i 2) as [Hle|Hgt]; [exact Hle|].
    rewrite (fov_planes_idle Hm Hi Hgt) in Ea. discriminate.
  - now apply clip_switch_fov_defined.
Qed.

Lemma plane_loop_defined (t : roi) :
  (clippingFlag poly <= 3)%N \/ 4 <= length fovNormals ->
  exists t', plane_loop plane_budget poly fovNormals 1 t = Normal t'.
Proof.
  intros Hok. unfold plane_budget. revert t.
  assert (S1 := fun i t H => @stage_defined i t H Hok).
  intros t.
  rewrite plane_loop_step by reflexivity.
  destruct (S1 1%N t) as [t1 ->]; [unfold planes; simpl; tauto|].
  rewrite bind_Normal. change ((1 * 2) mod 2 ^ 32)%N with 2%N.
  rewrite plane_loop_step by reflexivity.
  destruct (S1 2%N t1) as [t2 ->]; [unfold planes; simpl; tauto|].
  rewrite bind_Normal. change ((2 * 2) mod 2 ^ 32)%N with 4%N.
  rewrite plane_loop_step by reflexivity.
  destruct (S1 4%N t2) as [t3 ->]; [unfold planes; simpl; tauto|].
  rewrite bind_Normal. change ((4 * 2) mod 2 ^ 32)%N with 8%N.
  rewrite plane_loop_step by reflexivity.
  destruct (S1 8%N t3) as [t4 ->]; [unfold planes; simpl; tauto|].
  rewrite bind_Normal. change ((8 * 2) mod 2 ^ 32)%N with 16%N.
  rewrite plane_loop_step by reflexivity.
  destruct (S1 16%N t4) as [t5 ->]; [unfold planes; simpl; tauto|].
  rewrite bind_Normal. change ((16 * 2) mod 2 ^ 32)%N with 32%N.
  rewrite plane_loop_step by reflexivity.
  destruct (S1 32%N t5) as [t6 ->]; [unfold planes; simpl; tauto|].
  rewrite bind_Normal. change ((32 * 2) mod 2 ^ 32)%N with 64%N.
  exists t6. apply plane_loop_exit. reflexivity.
Qed.

End Defined.

Section DefinedClipping.
Context {V : ViSP}.

(** [computeRoiClipped] returns, whatever the corners and for every
    value of the mask, as soon as the mask asks for no field-of-view
    plane (it is at most NEAR|FAR) or the camera holds its four computed
    normals: no array is read out of its bounds and the six iterations
    fit the loop. *)
Theorem computeRoiClipped_defined (cam : vpCameraParameters)
    (poly : vpMbtPolygon) :
  (clippingFlag poly <= 3)%N
  \/ (isFovComputed cam = true /\ 4 <= length (getFovNormals cam)) ->
  exists t, computeRoiClipped cam poly = Normal (with_roiPointsClip t poly).
Proof.
  intros Hok. unfold computeRoiClipped.
  destruct (negb (clippingFlag poly =? NO_CLIPPING)%N);
    [|simpl; eauto].
  match goal with
  | |- context [plane_loop plane_budget poly ?f 1 ?t] =>
      destruct (@plane_loop_defined V poly f t) as [t' ->]
  end.
  - destruct (N.le_gt_cases (clippingFlag poly) 3) as [Hle|Hgt];
      [now left|right].
    destruct Hok as [Hm|[Hc Hl]]; [lia|].
    apply N.ltb_lt in Hgt. now rewrite Hc, Hgt.
  - simpl. eauto.
Qed.

End DefinedClipping.

(** ** Polygons that no plane cuts *)

Lemma clip_against_app {V : ViSP} (poly : vpMbtPolygon)
    (fovNormals : list vpColVector) (l1 l2 : list N) (t : roi) :
  clip_against poly fovNormals (l1 ++ l2) t
  = (t' <- clip_against poly fovNormals l1 t ;;
     clip_against poly fovNormals l2 t').
Proof.
  revert t. induction l1 as [|i l1 IH]; intros t; simpl; [reflexivity|].
  destruct (edge_loop poly fovNormals i t (length t) 0 []); simpl;
    auto.
Qed.

Section Uncut.
Context {V : ViSP}.
Variable poly : vpMbtPolygon.
Variable fovNormals : list vpColVector.

Lemma edge_loop_kept_segment (i : N) (x y : vpPoint * N) :
  nbpt poly = 2 ->
  kept poly fovNormals i (fst x) -> kept poly fovNormals i (fst y) ->
  edge_loop poly fovNormals i [x; y] 2 0 []
  = Normal [reprojected x; reprojected y].
Proof.
  intros Hn Kx Ky. destruct x as [a ia], y as [b ib]. simpl in Kx, Ky.
  simpl edge_loop. unfold clip_edge.
  change (1 mod length [(a, ia); (b, ib)]) with 1. simpl nth_error.
  cbv beta iota.
  rewrite (@clip_switch_kept V poly fovNormals i a b ia ib Kx Ky).
  simpl. rewrite N.eqb_refl, Hn. reflexivity.
Qed.

(** A plane that keeps every vertex of the working list returns the
    list, each vertex projected again. *)
Lemma stage_kept (i : N) (t : roi) :
  length t = nbpt poly ->
  Forall (fun x => kept poly fovNormals i (fst x)) t ->
  edge_loop poly fovNormals i t (length t) 0 [] = Normal (map reprojected t).
Proof.
  intros Hl Hk.
  destruct (Nat.eq_dec (nbpt poly) 2) as [E|E].
  - rewrite E in Hl.
    destruct t as [|x [|y [|z t]]]; try discriminate Hl.
    inversion Hk as [|? ? Kx Hk']; subst.
    inversion Hk' as [|? ? Ky _]; subst.
    now apply edge_loop_kept_segment.
  - now rewrite (@edge_loop_kept V poly fovNormals i t E Hk (length t) 0 []).
Qed.

Lemma map_reprojected_id (t : roi) :
  Forall (fun x => pt_projection (fst x) = fst x) t ->
  map reprojected t = t.
Proof.
  induction 1 as [|[q f] l Hq _ IHl]; [reflexivity|].
  simpl in *. unfold reprojected at 1. simpl. now rewrite Hq, IHl.
Qed.

Lemma clip_against_uncut (ps : list N) (t : roi) :
  length t = nbpt poly ->
  (forall i, In i ps -> Forall (fun x => kept poly fovNormals i (fst x)) t) ->
  Forall (fun x => pt_projection (fst x) = fst x) t ->
  clip_against poly fovNormals ps t = Normal t.
Proof.
  intros Hl Hk Hp. induction ps as [|i ps IH]; [reflexivity|].
  simpl. rewrite stage_kept by (auto; apply Hk; now left).
  rewrite map_reprojected_id by assumption.
  simpl. apply IH. intros j Hj. apply Hk. now right.
Qed.

End Uncut.

Lemma fov_plane_requested (clipMask : N) :
  (clipMask < 64)%N -> N.land clipMask FOV_CLIPPING <> 0%N ->
  exists i rest,
    filter (participates clipMask) [LEFT_CLIPPING; RIGHT_CLIPPING;
                                    UP_CLIPPING; DOWN_CLIPPING]
    = i :: rest
    /\ In i [LEFT_CLIPPING; RIGHT_CLIPPING; UP_CLIPPING; DOWN_CLIPPING].
Proof.
  intros Hm Hfov.
  assert (H : ((N.land clipMask FOV_CLIPPING =? 0)%N
               || match filter (participates clipMask)
                          [LEFT_CLIPPING; RIGHT_CLIPPING;
                           UP_CLIPPING; DOWN_CLIPPING] with
                  | [] => false
                  | _ :: _ => true
                  end) = true).
  { revert clipMask Hm Hfov.
    intros m Hm _. revert m Hm.
    apply (masks_below_64
             (fun m => (N.land m FOV_CLIPPING =? 0)%N
                       || match filter (participates m)
                                  [LEFT_CLIPPING; RIGHT_CLIPPING;
                                   UP_CLIPPING; DOWN_CLIPPING] with
                          | [] => false
                          | _ :: _ => true
                          end)).
    vm_compute. reflexivity. }
  apply orb_true_iff in H. destruct H as [H|H].
  - apply N.eqb_eq in H. contradiction.
  - destruct (filter (participates clipMask) _) as [|i rest] eqn:E;
      [discriminate|].
    exists i, rest. split; [reflexivity|].
    assert (Hin : In i (i :: rest)) by now left.
    rewrite <- E in Hin. apply filter_In in Hin. tauto.
Qed.

Section UncutPolygon.
Context {V : ViSP}.

(** Clipping is the identity on a polygon that every plane taking part
    keeps: whatever the number of corners, a segment included, if each
    corner carries its projection and is on the kept side of each such
    plane, the boundary is the list of corners, in order and untagged. *)
Theorem computeRoiClipped_uncut (cam : vpCameraParameters)
    (poly : vpMbtPolygon) :
  (clippingFlag poly < 64)%N ->
  (forall i, In i planes -> participates (clippingFlag poly) i = true ->
             Forall (kept poly (normals_in_use cam poly) i) (p poly)) ->
  Forall (fun q => pt_projection q = q) (p poly) ->
  computeRoiClipped cam poly
  = Normal (with_roiPointsClip (working_list poly) poly).
Proof.
  intros Hm Hk Hp.
  rewrite computeRoiClipped_clip_against by assumption.
  rewrite clip_against_uncut; [reflexivity| | |].
  - unfold working_list, nbpt. apply length_map.
  - intros i Hi. apply filter_In in Hi. destruct Hi as [Hi Hpart].
    unfold working_list. apply Forall_forall. intros x Hx.
    apply in_map_iff in Hx. destruct Hx as (q & <- & Hq). simpl.
    specialize (Hk i Hi Hpart). rewrite Forall_forall in Hk. now apply Hk.
  - unfold working_list. apply Forall_forall. intros x Hx.
    apply in_map_iff in Hx. destruct Hx as (q & <- & Hq). simpl.
    rewrite Forall_forall in Hp. now apply Hp.
Qed.

(** Field-of-view clipping on a camera whose normals were not computed:
    for a polygon with a corner, all corners between the near and the far
    distance, the first field-of-view plane reads a normal that is not
    there. *)
Theorem computeRoiClipped_fov_not_computed (cam : vpCameraParameters)
    (poly : vpMbtPolygon) :
  (clippingFlag poly < 64)%N ->
  N.land (clippingFlag poly) FOV_CLIPPING <> 0%N ->
  isFovComputed cam = false ->
  p poly <> [] ->
  Forall (fun q => (get_Z q <? distNearClip poly)%float = false
                   /\ (distFarClip poly <? get_Z q)%float = false
                   /\ pt_projection q = q) (p poly) ->
  computeRoiClipped cam poly = Undefined.
Proof.
  intros Hm Hfov Hc Hne Hall.
  rewrite computeRoiClipped_clip_against by assumption.
  assert (Hu : normals_in_use cam poly = [])
    by (unfold normals_in_use; now rewrite Hc).
  rewrite Hu.
  change planes with ([NEAR_CLIPPING; FAR_CLIPPING]
                        ++ [LEFT_CLIPPING; RIGHT_CLIPPING;
                            UP_CLIPPING; DOWN_CLIPPING]).
  rewrite filter_app, clip_against_app.
  rewrite Forall_forall in Hall.
  rewrite clip_against_uncut.
  - rewrite bind_Normal.
    destruct (fov_plane_requested Hm Hfov) as (i & rest & -> & Hi).
    simpl clip_against.
    destruct (p poly) as [|q0 l] eqn:Ep; [contradiction|].
    unfold working_list. rewrite Ep.
    simpl length. simpl edge_loop. unfold clip_edge.
    simpl nth_error.
    assert (Hk : exists k, fov_index i = Some k).
    { simpl in Hi.
      destruct Hi as [<-|[<-|[<-|[<-|[]]]]]; simpl; eauto. }
    destruct Hk as [k Hk].
    destruct (nth_error _ _) as [[y iy]|] eqn:Ey.
    + rewrite clip_switch_fov with (k := k) by exact Hk.
      unfold fov_case. destruct k; reflexivity.
    + exfalso. apply nth_error_None in Ey. simpl in Ey.
      assert (S (length l) <> 0) by lia.
      pose proof (Nat.mod_upper_bound 1 (S (length l)) H). simpl in *. lia.
  - unfold working_list, nbpt. apply length_map.
  - intros i Hi. apply filter_In in Hi. destruct Hi as [Hi _].
    unfold working_list. apply Forall_forall. intros x Hx.
    apply in_map_iff in Hx. destruct Hx as (q & <- & Hq). simpl.
    destruct (Hall q Hq) as (Hn & Hf & _).
    simpl in Hi. destruct Hi as [<-|[<-|[]]]; assumption.
  - unfold working_list. apply Forall_forall. intros x Hx.
    apply in_map_iff in Hx. destruct Hx as (q & <- & Hq). simpl.
    now destruct (Hall q Hq) as (_ & _ & ?).
Qed.

End UncutPolygon.

(** ** Invariants of the boundary *)

Section BoundaryInvariants.
Context {V : ViSP}.
Variable poly : vpMbtPolygon.
Variable fovNormals : list vpColVector.

(** What one edge adds to the new list: nothing, one vertex or two, made
    of the two variables after the [switch]. *)
Lemma clip_edge_cases (i : N) (t : roi) (j : nat) (acc out : roi)
    (brk : bool) :
  clip_edge poly fovNormals i t j acc = Normal (out, brk) ->
  exists (a b : vpPoint) (ia ib : N) (problem : bool) (e : edge),
    nth_error t j = Some (a, ia)
    /\ nth_error t (S j mod length t) = Some (b, ib)
    /\ clip_switch poly fovNormals i (mkEdge a b ia ib) = Normal (problem, e)
    /\ ((problem = true /\ out = acc /\ brk = false)
        \/ (problem = false
            /\ brk = (nbpt poly =? 2)
            /\ (out = acc ++ [(pt_projection (p1Clipped e), p1ClippedInfo e)]
                \/ out = acc ++ [(pt_projection (p1Clipped e), p1ClippedInfo e);
                                 (pt_projection (p2Clipped e), p2ClippedInfo e)])
            /\ (nbpt poly = 2 ->
                out = acc ++ [(pt_projection (p1Clipped e), p1ClippedInfo e);
                              (pt_projection (p2Clipped e),
                               p2ClippedInfo e)]))).
Proof.
  unfold clip_edge.
  destruct (nth_error t j) as [[a ia]|]; [|discriminate].
  destruct (nth_error t (S j mod length t)) as [[b ib]|]; [|discriminate].
  destruct (clip_switch poly fovNormals i (mkEdge a b ia ib))
    as [[problem e]| | |] eqn:Es; simpl; try discriminate.
  intros H. exists a, b, ia, ib, problem, e.
  do 2 (split; [reflexivity|]). split; [exact Es|].
  destruct problem; simpl in H.
  - injection H as <- <-. left. auto.
  - right. split; [reflexivity|].
    destruct (nbpt poly =? 2) eqn:En;
      destruct (p2ClippedInfo e =? ib)%N; simpl in H;
      injection H as <- <-; rewrite <- ?app_assoc; simpl;
      (split; [reflexivity|]); (split; [auto|]);
      intros E; apply Nat.eqb_eq in E; try congruence; reflexivity.
Qed.

(** A property of the vertices that the loop over the edges carries from
    its accumulator to its result, when each edge keeps it. *)
Lemma edge_loop_invariant (P : roi -> Prop) (i : N) (t : roi) :
  (forall j acc out brk,
      P acc -> clip_edge poly fovNormals i t j acc = Normal (out, brk) ->
      P out) ->
  forall (k j : nat) (acc out : roi),
    P acc ->
    edge_loop poly fovNormals i t k j acc = Normal out -> P out.
Proof.
  intros Hstep. induction k as [|k IH]; intros j acc out Hacc H; simpl in H.
  - injection H as <-. exact Hacc.
  - destruct (clip_edge poly fovNormals i t j acc) as [[o brk]| | |] eqn:E;
      simpl in H; try discriminate.
    destruct brk.
    + injection H as <-. eapply Hstep; eauto.
    + eapply IH; [|exact H]. eapply Hstep; eauto.
Qed.

(** The same for the loop over the planes. *)
Lemma plane_loop_invariant (P : roi -> Prop) :
  (forall i t out,
      P t -> edge_loop poly fovNormals i t (length t) 0 [] = Normal out ->
      P out) ->
  forall (fuel : nat) (i : N) (t out : roi),
    P t -> plane_loop fuel poly fovNormals i t = Normal out -> P out.
Proof.
  intros Hstage. induction fuel as [|fuel IH]; intros i t out Ht H;
    simpl in H.
  - destruct (i <? 64)%N; [discriminate|]. now injection H as <-.
  - destruct (i <? 64)%N; [|now injection H as <-].
    destruct (plane_active (clippingFlag poly) i).
    + destruct (edge_loop poly fovNormals i t (length t) 0 [])
        as [t'| | |] eqn:E; simpl in H; try discriminate.
      eapply IH; [|exact H]. eapply Hstage; eauto.
    + simpl in H. eapply IH; eauto.
Qed.

End BoundaryInvariants.

Section ProjectedBoundary.
Context {V : ViSP}.

Lemma roiPointsClip_projected (cam : vpCameraParameters)
    (poly poly' : vpMbtPolygon) :
  (forall q, pt_projection (pt_projection q) = pt_projection q) ->
  Forall (fun q => pt_projection q = q) (p poly) ->
  computeRoiClipped cam poly = Normal poly' ->
  Forall (fun x => pt_projection (fst x) = fst x) (roiPointsClip poly').
Proof.
  intros Hidem Hp H. unfold computeRoiClipped in H.
  rewrite working_list_initial in H.
  assert (Hw : Forall projected (working_list poly)).
  { unfold working_list. apply Forall_forall. intros x Hx.
    apply in_map_iff in Hx. destruct Hx as (q & <- & Hq).
    rewrite Forall_forall in Hp. now apply Hp. }
  destruct (negb (clippingFlag poly =? NO_CLIPPING)%N).
  - match type of H with
    | bind ?m _ = _ => destruct m as [t| | |] eqn:E; try discriminate
    end.
    simpl in H. injection H as <-. simpl.
    eapply (@plane_loop_invariant V poly _ (Forall projected)); [|exact Hw|exact E].
    intros i w out _ Hout.
    eapply (@edge_loop_invariant V poly _ (Forall projected));
      [|apply Forall_nil|exact Hout].
    intros j acc o brk Hacc Hedge.
    apply clip_edge_cases in Hedge.
    destruct Hedge as (a & b & ia & ib & problem & e & _ & _ & _ & Hc).
    destruct Hc as [(_ & -> & _)|(_ & _ & [-> | ->] & _)];
      [assumption| |];
      apply Forall_app; (split; [assumption|]);
      repeat constructor; unfold projected; simpl; apply Hidem.
  - simpl in H. injection H as <-. exact Hw.
Qed.

(** Every vertex of the boundary carries its own projection, when the
    corners do (as after [changeFrame]) and a second [projection()]
    changes nothing: the image points can be read from the stored
    normalized coordinates. *)
Theorem computeRoiClipped_projected (cam : vpCameraParameters)
    (poly poly' : vpMbtPolygon) :
  (forall q, pt_projection (pt_projection q) = pt_projection q) ->
  Forall (fun q => pt_projection q = q) (p poly) ->
  computeRoiClipped cam poly = Normal poly' ->
  Forall (fun x => pt_projection (fst x) = fst x) (roiPointsClip poly').
Proof. apply roiPointsClip_projected. Qed.

End ProjectedBoundary.

Lemma land_lor_within (a i m : N) :
  N.land a m = a -> N.land i m = i -> N.land (N.lor a i) m = N.lor a i.
Proof. intros Ha Hi. now rewrite N.land_lor_distr_l, Ha, Hi. Qed.

Lemma land_fold_lor (i : N) (l : list N) :
  In i l -> N.land i (fold_right N.lor 0%N l) = i.
Proof.
  intros Hi. apply N.bits_inj. intros n. rewrite N.land_spec.
  destruct (N.testbit i n) eqn:Eb; [|reflexivity]. simpl.
  induction l as [|x l IH]; [contradiction|].
  simpl. rewrite N.lor_spec. destruct Hi as [->|Hi].
  - now rewrite Eb.
  - rewrite IH by assumption. apply orb_true_r.
Qed.

Section Tags.
Context {V : ViSP}.
Variable poly : vpMbtPolygon.
Variable fovNormals : list vpColVector.

(** A plane adds its own bit to a tag, and no other. *)
Lemma clip_switch_tags (i m : N) (e e' : edge) (problem : bool) :
  In i planes ->
  clip_switch poly fovNormals i e = Normal (problem, e') ->
  N.land i m = i ->
  N.land (p1ClippedInfo e) m = p1ClippedInfo e ->
  N.land (p2ClippedInfo e) m = p2ClippedInfo e ->
  N.land (p1ClippedInfo e') m = p1ClippedInfo e'
  /\ N.land (p2ClippedInfo e') m = p2ClippedInfo e'.
Proof.
  intros Hi H Hm H1 H2.
  assert (Hfov : forall k, fov_index i = Some k ->
            N.land (p1ClippedInfo e') m = p1ClippedInfo e'
            /\ N.land (p2ClippedInfo e') m = p2ClippedInfo e').
  { intros k Hk. rewrite clip_switch_fov with (k := k) in H by exact Hk.
    unfold fov_case in H.
    destruct (nth_error fovNormals k) as [normal|]; [|discriminate H].
    unfold getClippedPointsFovGeneric in H.
    repeat match type of H with
           | context [if ?c then _ else _] => destruct c
           end;
      simpl in H; inversion H; subst; simpl; split;
      auto using land_lor_within. }
  unfold planes in Hi. simpl in Hi.
  destruct Hi as [<-|[<-|[<-|[<-|[<-|[<-|[]]]]]]];
    try (apply (Hfov 0); reflexivity); try (apply (Hfov 1); reflexivity);
    try (apply (Hfov 2); reflexivity); try (apply (Hfov 3); reflexivity);
    clear Hfov;
    unfold clip_switch, NEAR_CLIPPING, FAR_CLIPPING,
      getClippedPointsDistance in H;
    simpl in H;
    repeat match type of H with
           | context [if ?c then _ else _] => destruct c
           end;
    simpl in H; inversion H; subst; simpl; split;
    auto using land_lor_within.
Qed.

Lemma edge_loop_tags (i m : N) (t out : roi) :
  In i planes -> N.land i m = i ->
  Forall (fun x => N.land (snd x) m = snd x) t ->
  edge_loop poly fovNormals i t (length t) 0 [] = Normal out ->
  Forall (fun x => N.land (snd x) m = snd x) out.
Proof.
  intros Hi Hm Ht Hout.
  eapply (@edge_loop_invariant V poly fovNormals
            (Forall (fun x => N.land (snd x) m = snd x)));
    [|apply Forall_nil|exact Hout].
  intros j acc o brk Hacc Hedge.
  apply clip_edge_cases in Hedge.
  destruct Hedge as (a & b & ia & ib & problem & e & Ha & Hb & Hs & Hc).
  rewrite Forall_forall in Ht.
  pose proof (Ht _ (nth_error_In _ _ Ha)) as Ta.
  pose proof (Ht _ (nth_error_In _ _ Hb)) as Tb. simpl in Ta, Tb.
  destruct (clip_switch_tags m _ Hi Hs Hm Ta Tb) as [T1 T2].
  destruct Hc as [(_ & -> & _)|(_ & _ & [-> | ->] & _)];
    [assumption| |];
    apply Forall_app; (split; [assumption|]);
    repeat constructor; assumption.
Qed.

Lemma clip_against_tags (m : N) (ps : list N) :
  (forall i, In i ps -> In i planes /\ N.land i m = i) ->
  forall t out,
    Forall (fun x => N.land (snd x) m = snd x) t ->
    clip_against poly fovNormals ps t = Normal out ->
    Forall (fun x => N.land (snd x) m = snd x) out.
Proof.
  induction ps as [|i ps IH]; intros Hps t out Ht H; simpl in H.
  - now injection H as <-.
  - destruct (edge_loop poly fovNormals i t (length t) 0 [])
      as [t'| | |] eqn:E; simpl in H; try discriminate.
    destruct (Hps i (or_introl eq_refl)) as [Hi Hm].
    eapply IH; [|eapply edge_loop_tags; eauto|exact H].
    intros j Hj. apply Hps. now right.
Qed.

Lemma edge_loop_segment (i : N) (t : roi) :
  nbpt poly = 2 ->
  forall (k j : nat) (out : roi),
    edge_loop poly fovNormals i t k j [] = Normal out ->
    length out = 0 \/ length out = 2.
Proof.
  intros Hn. induction k as [|k IH]; intros j out H; simpl in H.
  - injection H as <-. now left.
  - destruct (clip_edge poly fovNormals i t j []) as [[o brk]| | |] eqn:E;
      simpl in H; try discriminate.
    apply clip_edge_cases in E.
    destruct E as (a & b & ia & ib & problem & e & _ & _ & _ & Hc).
    destruct Hc as [(_ & -> & ->)|(_ & -> & _ & Hout)].
    + eapply IH. exact H.
    + rewrite (Hout Hn) in H. apply Nat.eqb_eq in Hn. rewrite Hn in H.
      injection H as <-. now right.
Qed.

End Tags.

Section TaggedBoundary.
Context {V : ViSP}.

(** A vertex is never tagged with a plane that takes no part: every
    origin flag of the boundary is made of bits of the planes clipped
    against for the mask. *)
Theorem computeRoiClipped_tags (cam : vpCameraParameters)
    (poly poly' : vpMbtPolygon) :
  (clippingFlag poly < 64)%N ->
  computeRoiClipped cam poly = Normal poly' ->
  Forall (fun x => N.land (snd x) (planes_in_use (clippingFlag poly)) = snd x)
         (roiPointsClip poly').
Proof.
  intros Hm H.
  rewrite computeRoiClipped_clip_against in H by assumption.
  match type of H with
  | bind ?c _ = _ => destruct c as [t| | |] eqn:E; try discriminate
  end.
  simpl in H. injection H as <-. simpl.
  eapply clip_against_tags; [| |exact E].
  - intros i Hi. split; [apply filter_In in Hi; tauto|].
    now apply land_fold_lor.
  - unfold working_list. apply Forall_forall. intros x Hx.
    apply in_map_iff in Hx. destruct Hx as (q & <- & _). reflexivity.
Qed.

(** A segment is clipped to a segment or to nothing: with two corners
    the boundary has two vertices or none, whatever the mask. *)
Theorem computeRoiClipped_segment (cam : vpCameraParameters)
    (poly poly' : vpMbtPolygon) :
  nbpt poly = 2 ->
  computeRoiClipped cam poly = Normal poly' ->
  length (roiPointsClip poly') = 0 \/ length (roiPointsClip poly') = 2.
Proof.
  intros Hn H. unfold computeRoiClipped in H.
  rewrite working_list_initial in H.
  assert (Hw : length (working_list poly) = 2)
    by (unfold working_list; now rewrite length_map).
  destruct (negb (clippingFlag poly =? NO_CLIPPING)%N).
  - match type of H with
    | bind ?m _ = _ => destruct m as [t| | |] eqn:E; try discriminate
    end.
    simpl in H. injection H as <-. simpl.
    eapply (@plane_loop_invariant V poly _
              (fun l => length l = 0 \/ length l = 2));
      [|right; exact Hw|exact E].
    intros i w out _ Hout. eapply edge_loop_segment; eauto.
  - simpl in H. injection H as <-. now right.
Qed.

End TaggedBoundary.

(** * The image side *)

Section ImageRoi.
Context {V : ViSP} {C : MeterPixel}.

(** The two overloads of [getRoiClipped] with a pose agree: the image
    points of the one that also returns the flags are those of the other,
    its flags are those of the boundary, and the projection it performs on
    the stored vertices changes none of them. *)
Theorem getRoiClipped_overloads (cam : vpCameraParameters)
    (cMo : vpHomogeneousMatrix) (poly poly1 poly2 : vpMbtPolygon)
    (img : list vpImagePoint) (info : list (vpImagePoint * N)) :
  (forall q, pt_projection (pt_projection q) = pt_projection q) ->
  getRoiClipped_image_pose cam [] cMo poly = Normal (img, poly1) ->
  getRoiClipped_info_pose cam [] cMo poly = Normal (info, poly2) ->
  map fst info = img
  /\ map snd info = map snd (roiPointsClip poly1)
  /\ poly2 = poly1.
Proof.
  intros Hidem H1 H2.
  unfold getRoiClipped_image_pose in H1.
  unfold getRoiClipped_info_pose in H2.
  destruct (computeRoiClipped cam (changeFrame cMo poly))
    as [q| | |] eqn:E; try discriminate.
  simpl in H1, H2. injection H1 as <- <-.
  unfold getRoiClipped_info in H2.
  assert (Hp : map reprojected (roiPointsClip q) = roiPointsClip q).
  { apply map_reprojected_id.
    eapply roiPointsClip_projected; [exact Hidem| |exact E].
    now apply changeFrame_projected. }
  rewrite Hp in H2. injection H2 as <- <-.
  unfold getRoiClipped_image. simpl.
  rewrite !map_map. simpl. repeat split.
  pose proof (computeRoiClipped_frame _ _ E) as Hf.
  rewrite Hf. reflexivity.
Qed.

(** [getRoi] gives one image point per corner and
    [getRoiClipped] appends one per vertex of the boundary, in order. *)
Lemma getRoi_length (cam : vpCameraParameters) (poly : vpMbtPolygon)
    (roi0 : list vpImagePoint) :
  length (getRoi cam poly) = nbpt poly
  /\ length (getRoiClipped_image cam roi0 poly)
     = length roi0 + length (roiPointsClip poly).
Proof.
  unfold getRoi, getRoiClipped_image, nbpt.
  now rewrite length_app, !length_map.
Qed.

Lemma corner_count (height width : nat) (cam : vpCameraParameters)
    (l : list vpPoint) :
  forall n0,
    fold_left (fun n q =>
                 if (0 <? get_Z q)%float
                 then if inside_image height width (image_point cam q)
                      then S n else n
                 else n) l n0
    = n0 + length (filter (fun q => (0 <? get_Z q)%float
                                    && inside_image height width
                                         (image_point cam q)) l).
Proof.
  induction l as [|q l IH]; intros n0; simpl; [lia|].
  rewrite IH.
  destruct (0 <? get_Z q)%float; simpl; [|reflexivity].
  destruct (inside_image height width (image_point cam q)); simpl; lia.
Qed.

(** [getNbCornerInsideImage] counts the corners of positive depth whose
    image point is inside the image: the count never exceeds the number of
    corners, reaches it exactly when every corner is such a corner, and is
    stored in [nbCornersInsidePrev] of a polygon otherwise unchanged. *)
Theorem getNbCornerInsideImage_count (height width : nat)
    (cam : vpCameraParameters) (poly : vpMbtPolygon) :
  let r := getNbCornerInsideImage height width cam poly in
  fst r <= nbpt poly
  /\ (fst r = nbpt poly <->
      Forall (fun q => (0 <? get_Z q)%float = true
                       /\ inside_image height width (image_point cam q)
                          = true) (p poly))
  /\ snd r = with_nbCornersInsidePrev (fst r) poly
  /\ nbCornersInsidePrev (snd r) = fst r.
Proof.
  unfold getNbCornerInsideImage, nbpt. simpl.
  rewrite corner_count. simpl.
  set (f := fun q => (0 <? get_Z q)%float
                     && inside_image height width (image_point cam q)).
  split; [apply filter_length_le|]. split; [|split; reflexivity].
  split.
  - intros Hlen. apply Forall_forall. intros q Hq.
    assert (Hall : forallb f (p poly) = true).
    { clear Hq. induction (p poly) as [|x l IH]; [reflexivity|].
      simpl in *. destruct (f x); simpl in *.
      - apply IH. lia.
      - pose proof (filter_length_le f l). lia. }
    rewrite forallb_forall in Hall. specialize (Hall q Hq).
    unfold f in Hall. now apply andb_true_iff in Hall.
  - intros Hall. induction Hall as [|x l [Hz Hi] _ IH]; [reflexivity|].
    simpl. unfold f at 1. rewrite Hz, Hi. simpl. now rewrite IH.
Qed.

(** A polygon with no corner of positive depth has no corner inside the
    image, whatever the camera and the size of the image. *)
Theorem getNbCornerInsideImage_behind (height width : nat)
    (cam : vpCameraParameters) (poly : vpMbtPolygon) :
  Forall (fun q => (0 <? get_Z q)%float = false) (p poly) ->
  fst (getNbCornerInsideImage height width cam poly) = 0.
Proof.
  intros Hall. unfold getNbCornerInsideImage. simpl.
  rewrite corner_count. simpl.
  induction Hall as [|x l Hz _ IH]; [reflexivity|].
  simpl. now rewrite Hz.
Qed.

End ImageRoi.

Lemma inside_count (height width : nat) (l : list vpImagePoint) :
  forall n0 : float,
    fold_left (fun n ip => if inside_image height width ip
                           then (n + 1)%float else n) l n0
    = Nat.iter (length (filter (inside_image height width) l))
               (fun n => (n + 1)%float) n0.
Proof.
  induction l as [|ip l IH]; intros n0; simpl; [reflexivity|].
  rewrite IH. destruct (inside_image height width ip); [|reflexivity].
  simpl length. now rewrite Nat.iter_succ_r.
Qed.

Lemma filter_length_perm {A : Type} (f : A -> bool) (l l' : list A) :
  Permutation l l' -> length (filter f l) = length (filter f l').
Proof.
  induction 1 as [|x l l' _ IH|x y l|l l' l'' _ IH1 _ IH2]; simpl.
  - reflexivity.
  - destruct (f x); simpl; now rewrite IH.
  - destruct (f x), (f y); reflexivity.
  - now rewrite IH1.
Qed.

(** [roiInsideImage] depends on the region only through the number of
    its corners and the number of those inside the image: the order of
    the corners is indifferent. *)
Theorem roiInsideImage_permutation (height width : nat)
    (corners corners' : list vpImagePoint) :
  Permutation corners corners' ->
  roiInsideImage height width corners = roiInsideImage height width corners'.
Proof.
  intros Hperm. unfold roiInsideImage.
  rewrite !inside_count.
  rewrite (filter_length_perm (inside_image height width) Hperm).
  now rewrite (Permutation_length Hperm).
Qed.

(** ** The bounding box contains the points *)

Lemma SFltb_trans (x y z : spec_float) :
  SFltb x y = true -> SFltb y z = true -> SFltb x z = true.
Proof.
  unfold SFltb, SFcompare.
  destruct x as [sx|sx| |sx mx ex], y as [sy|sy| |sy my ey],
           z as [sz|sz| |sz mz ez];
    try destruct sx; try destruct sy; try destruct sz;
    try congruence;
    try change PosDef.Pos.compare_cont with Pos.compare_cont;
    change (Pos.compare_cont Eq) with Pos.compare;
    destruct (Z.compare_spec ex ey), (Z.compare_spec ey ez),
             (Z.compare_spec ex ez);
    try congruence; try lia;
    destruct (Pos.compare_spec mx my), (Pos.compare_spec my mz),
             (Pos.compare_spec mx mz);
    simpl; try congruence; try lia.
Qed.

Lemma ltb_trans (a b c : float) :
  (a <? b)%float = true -> (b <? c)%float = true -> (a <? c)%float = true.
Proof. rewrite !ltb_spec. apply SFltb_trans. Qed.

Lemma ltb_irrefl (a : float) : (a <? a)%float = false.
Proof.
  destruct (a <? a)%float eqn:E; [|reflexivity].
  pose proof (@ltb_asym _ _ E). congruence.
Qed.

Lemma ltb_below_nonpos (a b : float) :
  (a <? b)%float = true -> (0 <? b)%float = false -> (a <? 0)%float = true.
Proof.
  rewrite !ltb_spec. change (Prim2SF 0) with (S754_zero false).
  unfold SFltb, SFcompare.
  destruct (Prim2SF a) as [sa|sa| |sa ma ea],
           (Prim2SF b) as [sb|sb| |sb mb eb];
    try destruct sa; try destruct sb; congruence.
Qed.

(** The running maximum of the loop is not below 0 nor below any value
    met. *)
Lemma running_max_bound (xs : list float) :
  let M := fold_left (fun M x => if (0 <? x)%float && (M <? x)%float
                                 then x else M) xs 0%float in
  (M <? 0)%float = false /\ forall x, In x xs -> (M <? x)%float = false.
Proof.
  induction xs as [|x xs IH] using rev_ind; simpl.
  - split; [reflexivity|contradiction].
  - rewrite fold_left_app. simpl.
    set (M := fold_left _ xs 0%float) in *.
    destruct IH as [IH0 IH].
    destruct ((0 <? x)%float && (M <? x)%float) eqn:E.
    + apply andb_true_iff in E. destruct E as [E0 EM].
      split; [now apply ltb_asym|].
      intros q Hq. apply in_app_iff in Hq. destruct Hq as [Hq|[<-|[]]].
      * destruct (x <? q)%float eqn:Exq; [|reflexivity].
        pose proof (@ltb_trans _ _ _ EM Exq) as Ht.
        rewrite (IH q Hq) in Ht. discriminate.
      * apply ltb_irrefl.
    + split; [exact IH0|].
      intros q Hq. apply in_app_iff in Hq. destruct Hq as [Hq|[<-|[]]];
        [now apply IH|].
      destruct (M <? x)%float eqn:EM; [|reflexivity].
      rewrite andb_true_r in E.
      pose proof (@ltb_below_nonpos _ _ EM E). congruence.
Qed.

(** The running minimum is not above any value met, when none of them is
    negative. *)
Lemma running_min_bound (xs : list float) (m0 : float) :
  Forall (fun x => (x <? 0)%float = false) xs ->
  let m := fold_left (fun m x =>
                        let m1 := if (x <? m)%float then x else m in
                        if (x <? 0)%float then 1%float else m1) xs m0 in
  forall x, In x xs -> (x <? m)%float = false.
Proof.
  induction xs as [|x xs IH] using rev_ind; intros Hpos; simpl.
  - contradiction.
  - rewrite fold_left_app. simpl.
    apply Forall_app in Hpos. destruct Hpos as [Hxs Hx].
    inversion Hx as [|? ? Hx0 _]; subst. rewrite Hx0.
    specialize (IH Hxs). simpl in IH.
    set (m := fold_left _ xs m0) in *.
    intros q Hq. apply in_app_iff in Hq.
    destruct (x <? m)%float eqn:E.
    + destruct Hq as [Hq|[<-|[]]]; [|apply ltb_irrefl].
      destruct (q <? x)%float eqn:Eq; [|reflexivity].
      pose proof (@ltb_trans _ _ _ Eq E) as Ht.
      rewrite (IH q Hq) in Ht. discriminate.
    + destruct Hq as [Hq|[<-|[]]]; [now apply IH|exact E].
Qed.

Lemma minmax_scan_fields (iroi : list vpImagePoint) :
  let imin := fun m x => let m1 := if (x <? m)%float then x else m in
                         if (x <? 0)%float then 1%float else m1 in
  let imax := fun M x => if (0 <? x)%float && (M <? x)%float
                         then x else M in
  forall s : minmax,
    fold_left minmax_step iroi s
    = mkMinMax (fold_left imin (map get_i iroi) (i_min_d s))
               (fold_left imax (map get_i iroi) (i_max_d s))
               (fold_left imin (map get_j iroi) (j_min_d s))
               (fold_left imax (map get_j iroi) (j_max_d s)).
Proof.
  intros imin imax. induction iroi as [|ip l IH]; intros s; simpl.
  - now destruct s.
  - rewrite IH. reflexivity.
Qed.

(** The box of [getMinMaxRoi], before its casts to [int], contains the
    points: no coordinate is above the maximum of its axis, and no
    coordinate is below the minimum of its axis when the axis has no
    negative coordinate. *)
Theorem getMinMaxRoi_contains (iroi : list vpImagePoint) :
  let s := minmax_scan iroi in
  (forall q, In q iroi ->
             (i_max_d s <? get_i q)%float = false
             /\ (j_max_d s <? get_j q)%float = false)
  /\ (Forall (fun q => (get_i q <? 0)%float = false) iroi ->
      forall q, In q iroi -> (get_i q <? i_min_d s)%float = false)
  /\ (Forall (fun q => (get_j q <? 0)%float = false) iroi ->
      forall q, In q iroi -> (get_j q <? j_min_d s)%float = false).
Proof.
  intros s. subst s. unfold minmax_scan.
  rewrite (minmax_scan_fields iroi minmax_init). simpl.
  split; [|split].
  - intros q Hq. split.
    + apply (running_max_bound (map get_i iroi)). now apply in_map.
    + apply (running_max_bound (map get_j iroi)). now apply in_map.
  - intros Hpos q Hq.
    apply (@running_min_bound (map get_i iroi) _).
    + apply Forall_forall. intros x Hx. apply in_map_iff in Hx.
      destruct Hx as (r & <- & Hr). rewrite Forall_forall in Hpos.
      now apply Hpos.
    + now apply in_map.
  - intros Hpos q Hq.
    apply (@running_min_bound (map get_j iroi) _).
    + apply Forall_forall. intros x Hx. apply in_map_iff in Hx.
      destruct Hx as (r & <- & Hr). rewrite Forall_forall in Hpos.
      now apply Hpos.
    + now apply in_map.
Qed.

(** ** The deprecated visibility test *)

Section DepthTest.
Context {V : ViSP} {C : MeterPixel}.

(** When the depth test rejects nothing, the deprecated [isVisible]
    answers as [isVisible] for the threshold of 89 degrees; with three
    corners or more it is the same call, the second [changeFrame] of the
    same pose changing nothing; with two corners or fewer it differs by
    leaving the corners transformed. *)
Theorem isVisible_depthTest_passes (modulo : bool)
    (cMo : vpHomogeneousMatrix) (depthTest : bool) (poly : vpMbtPolygon) :
  (forall q, pt_projection (pt_changeFrame cMo
                              (pt_projection (pt_changeFrame cMo q)))
             = pt_projection (pt_changeFrame cMo q)) ->
  depthTest
  && existsb (fun q => (get_Z q <? 0)%float) (p (changeFrame cMo poly))
  = false ->
  fst (isVisible_depthTest modulo cMo depthTest poly)
  = fst (isVisible cMo (rad 89) modulo poly)
  /\ (3 <= nbpt poly ->
      isVisible_depthTest modulo cMo depthTest poly
      = isVisible cMo (rad 89) modulo poly)
  /\ (nbpt poly <= 2 ->
      isVisible_depthTest modulo cMo depthTest poly
      = (true, with_visibility true false (changeFrame cMo poly))).
Proof.
  intros Hlaw Hpass. unfold isVisible_depthTest. rewrite Hpass.
  assert (Hn : nbpt (changeFrame cMo poly) = nbpt poly)
    by (unfold changeFrame, nbpt; simpl; apply length_map).
  assert (Hcc : changeFrame cMo (changeFrame cMo poly) = changeFrame cMo poly).
  { unfold changeFrame. simpl. unfold with_p. simpl.
    rewrite map_map. f_equal. apply map_ext. intros q. apply Hlaw. }
  unfold isVisible. rewrite Hn, Hcc.
  destruct (nbpt poly <=? 2) eqn:E.
  - split; [reflexivity|]. split; [|reflexivity].
    apply Nat.leb_le in E. lia.
  - split; [reflexivity|]. split; [reflexivity|].
    apply Nat.leb_gt in E. lia.
Qed.

End DepthTest.

(** * The further properties on concrete scenes *)

Lemma computeRoiClipped_no_corner_witness :
  p (setClipping 63 vpMbtPolygon_new) = []
  /\ computeRoiClipped (V := Ref.visp) Scene.cam
                       (setClipping 63 vpMbtPolygon_new)
     = Normal (with_roiPointsClip [] (setClipping 63 vpMbtPolygon_new)).
Proof.
  split; [reflexivity|].
  exact (@computeRoiClipped_no_corner Ref.visp Scene.cam
           (setClipping 63 vpMbtPolygon_new) eq_refl).
Defined.

Lemma computeRoiClipped_no_clipping_witness :
  clippingFlag (Scene.triangle NO_CLIPPING) = NO_CLIPPING
  /\ computeRoiClipped (V := Ref.visp) Scene.cam (Scene.triangle NO_CLIPPING)
     = Normal (with_roiPointsClip
                 (map (fun q => (q, NO_CLIPPING)) Scene.corners)
                 (Scene.triangle NO_CLIPPING)).
Proof.
  split; [reflexivity|].
  exact (proj1 (@computeRoiClipped_no_clipping Ref.visp Scene.cam
                  (Scene.triangle NO_CLIPPING) eq_refl)).
Defined.

Lemma computeRoiClipped_all_near_witness :
  let V := Ref.visp in
  let poly := mkPolygon (-1) 0 false false
                [Ref.cpt 0 0 0.0005; Ref.cpt 1 0 0.0002; Ref.cpt 0 1 0.0007]
                [] FOV_CLIPPING 0.001 100 in
  (FAR_CLIPPING < clippingFlag poly)%N
  /\ Forall (fun q => (get_Z q <? distNearClip poly)%float = true) (p poly)
  /\ computeRoiClipped (mkCam false []) poly
     = Normal (with_roiPointsClip [] poly).
Proof.
  cbv zeta.
  assert (H1 : (FAR_CLIPPING < FOV_CLIPPING)%N) by reflexivity.
  split; [exact H1|].
  match goal with
  | |- Forall ?P ?l /\ _ => assert (H2 : Forall P l) by (repeat constructor)
  end.
  split; [exact H2|].
  match goal with
  | |- computeRoiClipped _ ?q = _ =>
      exact (@computeRoiClipped_all_near Ref.visp (mkCam false []) q
               (or_intror H1) H2)
  end.
Defined.

Lemma computeRoiClipped_idempotent_witness :
  computeRoiClipped (V := Ref.visp) Scene.cam Scene.segment
  = Normal (with_roiPointsClip
              [(pt_projection (ViSP := Ref.visp)
                  (distance_crossing (V := Ref.visp) 0.001
                     (Ref.cpt 1 2 0.0005) (Ref.cpt 3 4 0.01)), NEAR_CLIPPING);
               (Ref.cpt 3 4 0.01, NO_CLIPPING)] Scene.segment)
  /\ computeRoiClipped (V := Ref.visp) Scene.cam
       (with_roiPointsClip
              [(pt_projection (ViSP := Ref.visp)
                  (distance_crossing (V := Ref.visp) 0.001
                     (Ref.cpt 1 2 0.0005) (Ref.cpt 3 4 0.01)), NEAR_CLIPPING);
               (Ref.cpt 3 4 0.01, NO_CLIPPING)] Scene.segment)
     = Normal (with_roiPointsClip
              [(pt_projection (ViSP := Ref.visp)
                  (distance_crossing (V := Ref.visp) 0.001
                     (Ref.cpt 1 2 0.0005) (Ref.cpt 3 4 0.01)), NEAR_CLIPPING);
               (Ref.cpt 3 4 0.01, NO_CLIPPING)] Scene.segment).
Proof.
  match goal with
  | |- ?A /\ _ => assert (H : A) by (vm_compute; reflexivity)
  end.
  split; [exact H|].
  exact (@computeRoiClipped_idempotent Ref.visp Scene.cam _ _ H).
Defined.

Lemma computeRoiClipped_defined_witness :
  (isFovComputed Scene.cam = true /\ 4 <= length (getFovNormals Scene.cam))
  /\ exists t,
       computeRoiClipped (V := Ref.visp) Scene.cam (Scene.triangle 63)
       = Normal (with_roiPointsClip t (Scene.triangle 63)).
Proof.
  assert (H : isFovComputed Scene.cam = true
              /\ 4 <= length (getFovNormals Scene.cam))
    by (split; [reflexivity|apply Nat.le_refl]).
  split; [exact H|].
  exact (@computeRoiClipped_defined Ref.visp Scene.cam (Scene.triangle 63)
           (or_intror H)).
Defined.

Lemma computeRoiClipped_uncut_witness :
  let V := Ref.visp in
  let poly := mkPolygon (-1) 0 false false
                [Ref.cpt 0 0 2; Ref.cpt 1 0 2] [] 3 0.001 100 in
  (clippingFlag poly < 64)%N
  /\ Forall (fun q => pt_projection q = q) (p poly)
  /\ computeRoiClipped Scene.cam poly
     = Normal (with_roiPointsClip (working_list poly) poly).
Proof.
  cbv zeta.
  assert (H1 : (3 < 64)%N) by reflexivity.
  split; [exact H1|].
  match goal with
  | |- Forall ?P ?l /\ _ => assert (H2 : Forall P l) by (repeat constructor)
  end.
  split; [exact H2|].
  match goal with
  | |- computeRoiClipped _ ?q = _ =>
      apply (@computeRoiClipped_uncut Ref.visp Scene.cam q H1);
        [|exact H2]
  end.
  intros i Hi Hpart. unfold planes in Hi. simpl in Hi.
  destruct Hi as [<-|[<-|[<-|[<-|[<-|[<-|[]]]]]]];
    try discriminate Hpart; repeat constructor.
Defined.

Lemma computeRoiClipped_fov_not_computed_witness :
  let V := Ref.visp in
  let poly := Scene.triangle LEFT_CLIPPING in
  (clippingFlag poly < 64)%N
  /\ N.land (clippingFlag poly) FOV_CLIPPING <> 0%N
  /\ p poly <> []
  /\ computeRoiClipped (mkCam false []) poly = Undefined.
Proof.
  cbv zeta.
  assert (H1 : (clippingFlag (Scene.triangle LEFT_CLIPPING) < 64)%N)
    by reflexivity.
  assert (H2 : N.land (clippingFlag (Scene.triangle LEFT_CLIPPING))
                      FOV_CLIPPING <> 0%N) by discriminate.
  assert (H3 : p (Scene.triangle LEFT_CLIPPING) <> []) by discriminate.
  split; [exact H1|]. split; [exact H2|]. split; [exact H3|].
  apply (@computeRoiClipped_fov_not_computed Ref.visp (mkCam false []) _
           H1 H2 eq_refl H3).
  repeat constructor.
Defined.

Lemma computeRoiClipped_projected_witness :
  let V := Ref.visp in
  (forall q, pt_projection (pt_projection q) = pt_projection q)
  /\ Forall (fun q => pt_projection q = q) (p Scene.segment)
  /\ Forall (fun x => pt_projection (fst x) = fst x)
       [(pt_projection (distance_crossing 0.001
                          (Ref.cpt 1 2 0.0005) (Ref.cpt 3 4 0.01)),
         NEAR_CLIPPING);
        (Ref.cpt 3 4 0.01, NO_CLIPPING)].
Proof.
  cbv zeta.
  assert (H1 : forall q, pt_projection (ViSP := Ref.visp)
                           (pt_projection (ViSP := Ref.visp) q)
                         = pt_projection (ViSP := Ref.visp) q)
    by (intros q; reflexivity).
  assert (H2 : Forall (fun q => pt_projection (ViSP := Ref.visp) q = q)
                      (p Scene.segment)) by (repeat constructor).
  split; [exact H1|]. split; [exact H2|].
  apply (@computeRoiClipped_projected Ref.visp Scene.cam Scene.segment
           (with_roiPointsClip _ Scene.segment) H1 H2).
  vm_compute. reflexivity.
Defined.

Lemma computeRoiClipped_tags_witness :
  let V := Ref.visp in
  (clippingFlag Scene.segment < 64)%N
  /\ planes_in_use (clippingFlag Scene.segment) = NEAR_CLIPPING
  /\ Forall (fun x => N.land (snd x) NEAR_CLIPPING = snd x)
       [(pt_projection (distance_crossing 0.001
                          (Ref.cpt 1 2 0.0005) (Ref.cpt 3 4 0.01)),
         NEAR_CLIPPING);
        (Ref.cpt 3 4 0.01, NO_CLIPPING)].
Proof.
  cbv zeta.
  assert (H1 : (clippingFlag Scene.segment < 64)%N) by reflexivity.
  split; [exact H1|]. split; [reflexivity|].
  apply (@computeRoiClipped_tags Ref.visp Scene.cam Scene.segment
           (with_roiPointsClip _ Scene.segment) H1).
  vm_compute. reflexivity.
Defined.

Lemma computeRoiClipped_segment_witness :
  let V := Ref.visp in
  nbpt Scene.segment = 2
  /\ (length [(pt_projection (distance_crossing 0.001
                                (Ref.cpt 1 2 0.0005) (Ref.cpt 3 4 0.01)),
               NEAR_CLIPPING);
              (Ref.cpt 3 4 0.01, NO_CLIPPING)] = 0
      \/ length [(pt_projection (distance_crossing 0.001
                                   (Ref.cpt 1 2 0.0005) (Ref.cpt 3 4 0.01)),
                  NEAR_CLIPPING);
                 (Ref.cpt 3 4 0.01, NO_CLIPPING)] = 2).
Proof.
  cbv zeta. split; [reflexivity|].
  apply (@computeRoiClipped_segment Ref.visp Scene.cam Scene.segment
           (with_roiPointsClip _ Scene.segment) eq_refl).
  vm_compute. reflexivity.
Defined.

Lemma getRoiClipped_overloads_witness :
  let V := Ref.visp in
  let C := RefImage.meterPixel in
  (forall q, pt_projection (pt_projection q) = pt_projection q)
  /\ exists img info poly1,
       getRoiClipped_image_pose Scene.cam [] Ref.identity (Scene.triangle 63)
       = Normal (img, poly1)
       /\ getRoiClipped_info_pose Scene.cam [] Ref.identity
                                  (Scene.triangle 63)
          = Normal (info, poly1)
       /\ map fst info = img.
Proof.
  cbv zeta.
  assert (H1 : forall q, pt_projection (ViSP := Ref.visp)
                           (pt_projection (ViSP := Ref.visp) q)
                         = pt_projection (ViSP := Ref.visp) q)
    by (intros q; reflexivity).
  split; [exact H1|].
  destruct (getRoiClipped_image_pose (V := Ref.visp)
              (C := RefImage.meterPixel) Scene.cam [] Ref.identity
              (Scene.triangle 63)) as [[img poly1]| | |] eqn:E1;
    try (vm_compute in E1; discriminate E1).
  destruct (getRoiClipped_info_pose (V := Ref.visp)
              (C := RefImage.meterPixel) Scene.cam [] Ref.identity
              (Scene.triangle 63)) as [[info poly2]| | |] eqn:E2;
    try (vm_compute in E2; discriminate E2).
  destruct (@getRoiClipped_overloads Ref.visp RefImage.meterPixel Scene.cam
              Ref.identity (Scene.triangle 63) poly1 poly2 img info
              H1 E1 E2) as (Ha & _ & Hc).
  exists img, info, poly1. rewrite <- Hc. auto.
Defined.

Lemma getNbCornerInsideImage_behind_witness :
  let V := Ref.visp in
  let C := RefImage.meterPixel in
  let poly := mkPolygon (-1) 0 false false
                [Ref.cpt 0 0 (-2); Ref.cpt 1 0 (-2); Ref.cpt 0 1 0]
                [] NO_CLIPPING 0.001 100 in
  Forall (fun q => (0 <? get_Z q)%float = false) (p poly)
  /\ fst (getNbCornerInsideImage 480 640 Scene.cam poly) = 0.
Proof.
  cbv zeta.
  match goal with
  | |- Forall ?P ?l /\ _ => assert (H : Forall P l) by (repeat constructor)
  end.
  split; [exact H|].
  match goal with
  | |- fst (getNbCornerInsideImage _ _ _ ?q) = _ =>
      exact (@getNbCornerInsideImage_behind RefImage.meterPixel
               480 640 Scene.cam q H)
  end.
Defined.

Lemma roiInsideImage_permutation_witness :
  Permutation [ImagePoint 10 20; ImagePoint (-5) 3; ImagePoint 7 7]
              [ImagePoint (-5) 3; ImagePoint 10 20; ImagePoint 7 7]
  /\ roiInsideImage 100 100
       [ImagePoint 10 20; ImagePoint (-5) 3; ImagePoint 7 7]
     = roiInsideImage 100 100
         [ImagePoint (-5) 3; ImagePoint 10 20; ImagePoint 7 7].
Proof.
  assert (H : Permutation
                [ImagePoint 10 20; ImagePoint (-5) 3; ImagePoint 7 7]
                [ImagePoint (-5) 3; ImagePoint 10 20; ImagePoint 7 7])
    by (apply perm_swap).
  split; [exact H|].
  exact (@roiInsideImage_permutation 100 100 _ _ H).
Defined.

Lemma getMinMaxRoi_contains_witness :
  let iroi := [ImagePoint 3 10; ImagePoint 5 2] in
  Forall (fun q => (get_i q <? 0)%float = false) iroi
  /\ In (ImagePoint 5 2) iroi
  /\ (get_i (ImagePoint 5 2) <? i_min_d (minmax_scan iroi))%float = false.
Proof.
  cbv zeta.
  match goal with
  | |- Forall ?P ?l /\ _ => assert (H : Forall P l) by (repeat constructor)
  end.
  assert (Hin : In (ImagePoint 5 2) [ImagePoint 3 10; ImagePoint 5 2])
    by (right; left; reflexivity).
  split; [exact H|]. split; [exact Hin|].
  exact (proj1 (proj2 (getMinMaxRoi_contains
                         [ImagePoint 3 10; ImagePoint 5 2]))
               H (ImagePoint 5 2) Hin).
Defined.

Lemma isVisible_depthTest_passes_witness :
  let V := Ref.visp in
  (forall q, pt_projection (pt_changeFrame Ref.identity
                              (pt_projection (pt_changeFrame Ref.identity q)))
             = pt_projection (pt_changeFrame Ref.identity q))
  /\ true && existsb (fun q => (get_Z q <? 0)%float)
                     (p (changeFrame Ref.identity (Scene.triangle 63)))
     = false
  /\ isVisible_depthTest false Ref.identity true (Scene.triangle 63)
     = isVisible Ref.identity (rad 89) false (Scene.triangle 63).
Proof.
  cbv zeta.
  assert (H1 : forall q,
             pt_projection (ViSP := Ref.visp)
               (pt_changeFrame (ViSP := Ref.visp) Ref.identity
                  (pt_projection (ViSP := Ref.visp)
                     (pt_changeFrame (ViSP := Ref.visp) Ref.identity q)))
             = pt_projection (ViSP := Ref.visp)
                 (pt_changeFrame (ViSP := Ref.visp) Ref.identity q))
    by (intros q; reflexivity).
  assert (H2 : true && existsb (fun q => (get_Z q <? 0)%float)
                 (p (changeFrame (V := Ref.visp) Ref.identity
                       (Scene.triangle 63))) = false) by reflexivity.
  split; [exact H1|]. split; [exact H2|].
  apply (@isVisible_depthTest_passes Ref.visp false Ref.identity true
           (Scene.triangle 63) H1 H2).
  apply Nat.le_refl.
Defined.

(** * A segment across the near plane *)

Lemma distance_crossing_formula {V : ViSP} (distance : float) (a b : vpPoint) :
  distance_crossing distance a b
  = let t := fdepth_parameter distance (get_Z a) (get_Z b) in
    point_at (falong t (get_X a) (get_X b)) (falong t (get_Y a) (get_Y b))
             distance.
Proof. reflexivity. Qed.

(** On the rationals the point of that parameter on the line of the two
    points has the depth [distance]. *)
Lemma depth_parameter_exact (d z1 z2 : Q) :
  (~ z2 - z1 == 0)%Q ->
  (Qalong (Qdepth_parameter d z1 z2) z1 z2 == d)%Q.
Proof.
  intros Hden. unfold Qdepth_parameter, Qalong, depth_parameter, along.
  field. exact Hden.
Qed.

Section NearSegmentClip.
Context {V : ViSP}.

(** C6: a polygon of two corners, one at depth 0.0005 and the other at
    depth 0.01, clipped with the near plane at 0.001 enabled (and any
    other plane of the mask keeping the result), has a boundary of exactly
    two vertices.  One is the interpolated point, tagged NEAR: its depth
    is 0.001 and its X and Y are those of the segment at the parameter
    [t = (0.001 - Z1) / (Z2 - Z1)], which is strictly between 0 and 1.
    The other is the endpoint beyond the plane, as it was and with no tag.
    The loop over the edges leaves by [break] at the first edge. *)
Theorem near_clip_segment (cam : vpCameraParameters) (poly : vpMbtPolygon)
    (a b : vpPoint) :
  (forall q, get_X (pt_projection q) = get_X q
             /\ get_Y (pt_projection q) = get_Y q
             /\ get_Z (pt_projection q) = get_Z q) ->
  (forall q, pt_projection (pt_projection q) = pt_projection q) ->
  pt_projection a = a -> pt_projection b = b ->
  p poly = [a; b] ->
  (clippingFlag poly < 64)%N ->
  N.land (clippingFlag poly) NEAR_CLIPPING = NEAR_CLIPPING ->
  distNearClip poly = 0.001%float ->
  let tz := fdepth_parameter 0.001 (get_Z a) (get_Z b) in
  let v := pt_projection
             (point_at (falong tz (get_X a) (get_X b))
                       (falong tz (get_Y a) (get_Y b)) 0.001) in
  let later := fun x y : vpPoint =>
    forall i, In i [FAR_CLIPPING; LEFT_CLIPPING; RIGHT_CLIPPING;
                    UP_CLIPPING; DOWN_CLIPPING] ->
              participates (clippingFlag poly) i = true ->
              kept poly (normals_in_use cam poly) i x
              /\ kept poly (normals_in_use cam poly) i y in
  (get_X v = falong tz (get_X a) (get_X b)
   /\ get_Y v = falong tz (get_Y a) (get_Y b)
   /\ get_Z v = 0.001%float)
  /\ (get_Z a = 0.0005%float -> get_Z b = 0.01%float -> later v b ->
      (0 <? tz)%float = true /\ (tz <? 1)%float = true
      /\ computeRoiClipped cam poly
         = Normal (with_roiPointsClip
                     [(v, NEAR_CLIPPING); (b, NO_CLIPPING)] poly)
      /\ clip_edge poly (normals_in_use cam poly) NEAR_CLIPPING
                   (working_list poly) 0 []
         = Normal ([(v, NEAR_CLIPPING); (b, NO_CLIPPING)], true))
  /\ (get_Z a = 0.01%float -> get_Z b = 0.0005%float -> later a v ->
      (0 <? tz)%float = true /\ (tz <? 1)%float = true
      /\ computeRoiClipped cam poly
         = Normal (with_roiPointsClip
                     [(a, NO_CLIPPING); (v, NEAR_CLIPPING)] poly)
      /\ clip_edge poly (normals_in_use cam poly) NEAR_CLIPPING
                   (working_list poly) 0 []
         = Normal ([(a, NO_CLIPPING); (v, NEAR_CLIPPING)], true))
  /\ (forall d z1 z2 : Q,
        (~ z2 - z1 == 0)%Q ->
        (Qalong (Qdepth_parameter d z1 z2) z1 z2 == d)%Q).
Proof.
  intros HXYZ Hidem Hpa Hpb Hp Hm Hnear Hd tz v later.
  assert (Hv : pt_projection (distance_crossing 0.001 a b) = v)
    by reflexivity.
  assert (Hpv : pt_projection v = v) by (unfold v; apply Hidem).
  split.
  { unfold v. destruct (HXYZ (point_at (falong tz (get_X a) (get_X b))
                                       (falong tz (get_Y a) (get_Y b))
                                       0.001%float)) as (-> & -> & ->).
    repeat split. }
  assert (Hn : nbpt poly = 2) by (unfold nbpt; now rewrite Hp).
  assert (Hw : working_list poly = [(a, NO_CLIPPING); (b, NO_CLIPPING)])
    by (unfold working_list; now rewrite Hp).
  assert (Hpart : participates (clippingFlag poly) NEAR_CLIPPING = true).
  { unfold participates. apply N.eqb_eq in Hnear. now rewrite Hnear. }
  assert (Hc : forall x y ix iy,
             edge_loop poly (normals_in_use cam poly) NEAR_CLIPPING
                       (working_list poly) (length (working_list poly)) 0 []
             = Normal [(x, ix); (y, iy)] ->
             pt_projection x = x -> pt_projection y = y ->
             later x y ->
             computeRoiClipped cam poly
             = Normal (with_roiPointsClip [(x, ix); (y, iy)] poly)).
  { intros x y ix iy Hloop Hx Hy Hlater.
    rewrite computeRoiClipped_clip_against by exact Hm.
    unfold planes. rewrite clip_against_filter, Hpart, Hloop, bind_Normal.
    rewrite clip_against_uncut; [reflexivity| | |].
    - now rewrite Hn.
    - intros i Hi. apply filter_In in Hi. destruct Hi as [Hi Hpi].
      destruct (Hlater i Hi Hpi) as [Kx Ky].
      repeat constructor; assumption.
    - repeat constructor; assumption. }
  rewrite Hw in *. simpl length in Hc.
  split; [|split].
  - intros Ha Hb Hlater.
    assert (He : clip_edge poly (normals_in_use cam poly) NEAR_CLIPPING
                   [(a, NO_CLIPPING); (b, NO_CLIPPING)] 0 []
                 = Normal ([(v, NEAR_CLIPPING); (b, NO_CLIPPING)], true)).
    { unfold clip_edge. simpl nth_error.
      unfold clip_switch, NEAR_CLIPPING, getClippedPointsDistance.
      simpl p1Clipped. simpl p2Clipped. rewrite Hd, Ha, Hb, Hn.
      simpl. rewrite Hpb, Hv. reflexivity. }
    split; [unfold tz, fdepth_parameter, depth_parameter;
            rewrite Ha, Hb; reflexivity|].
    split; [unfold tz, fdepth_parameter, depth_parameter;
            rewrite Ha, Hb; reflexivity|].
    split; [|exact He].
    apply Hc; try assumption.
    simpl edge_loop. rewrite He. reflexivity.
  - intros Ha Hb Hlater.
    assert (He : clip_edge poly (normals_in_use cam poly) NEAR_CLIPPING
                   [(a, NO_CLIPPING); (b, NO_CLIPPING)] 0 []
                 = Normal ([(a, NO_CLIPPING); (v, NEAR_CLIPPING)], true)).
    { unfold clip_edge. simpl nth_error.
      unfold clip_switch, NEAR_CLIPPING, getClippedPointsDistance.
      simpl p1Clipped. simpl p2Clipped. rewrite Hd, Ha, Hb, Hn.
      simpl. rewrite Hpa, Hv. reflexivity. }
    split; [unfold tz, fdepth_parameter, depth_parameter;
            rewrite Ha, Hb; reflexivity|].
    split; [unfold tz, fdepth_parameter, depth_parameter;
            rewrite Ha, Hb; reflexivity|].
    split; [|exact He].
    apply Hc; try assumption.
    simpl edge_loop. rewrite He. reflexivity.
  - intros d z1 z2. apply depth_parameter_exact.
Qed.

End NearSegmentClip.

Lemma near_clip_segment_witness :
  let V := Ref.visp in
  let a := Ref.cpt 1 2 0.0005 in
  let b := Ref.cpt 3 4 0.01 in
  let poly := mkPolygon (-1) 0 false false [a; b] [] 3 0.001 100 in
  let tz := fdepth_parameter 0.001 0.0005 0.01 in
  let v := pt_projection (point_at (falong tz 1 3) (falong tz 2 4) 0.001) in
  (forall q, get_X (pt_projection q) = get_X q
             /\ get_Y (pt_projection q) = get_Y q
             /\ get_Z (pt_projection q) = get_Z q)
  /\ (forall q, pt_projection (pt_projection q) = pt_projection q)
  /\ pt_projection a = a /\ pt_projection b = b
  /\ (clippingFlag poly < 64)%N
  /\ N.land (clippingFlag poly) NEAR_CLIPPING = NEAR_CLIPPING
  /\ get_Z a = 0.0005%float /\ get_Z b = 0.01%float
  /\ computeRoiClipped Scene.cam poly
     = Normal (with_roiPointsClip [(v, NEAR_CLIPPING); (b, NO_CLIPPING)] poly).
Proof.
  cbv zeta.
  assert (H1 : forall q,
             get_X (pt_projection (ViSP := Ref.visp) q) = get_X q
             /\ get_Y (pt_projection (ViSP := Ref.visp) q) = get_Y q
             /\ get_Z (pt_projection (ViSP := Ref.visp) q) = get_Z q)
    by (intros q; repeat split).
  assert (H2 : forall q, pt_projection (ViSP := Ref.visp)
                           (pt_projection (ViSP := Ref.visp) q)
                         = pt_projection (ViSP := Ref.visp) q)
    by (intros q; reflexivity).
  split; [exact H1|]. split; [exact H2|].
  do 6 (split; [reflexivity|]).
  match goal with
  | |- computeRoiClipped _ ?q = _ =>
      destruct (@near_clip_segment Ref.visp Scene.cam q
                  (Ref.cpt 1 2 0.0005) (Ref.cpt 3 4 0.01)
                  H1 H2 eq_refl eq_refl eq_refl eq_refl eq_refl eq_refl)
        as (_ & Hcase & _)
  end.
  apply Hcase; [reflexivity|reflexivity|].
  intros i Hi Hpart. simpl in Hi.
  destruct Hi as [<-|[<-|[<-|[<-|[<-|[]]]]]];
    try discriminate Hpart; split; reflexivity.
Defined.
